(** * NubuStream: session registry, broadcast engine, moderation and metrics

    A shallow embedding of [src/streaming_chat_server.py].

    - Python [int] counters are unbounded and modelled as [Z].
    - [Dict[str, _]] is a [gmap string _], [Set[str]] a [gset string].
    - The two percentages are IEEE binary64 values, modelled with Rocq's
      primitive floats.
    - Coroutines run on one event loop: a handler keeps the processor until
      it awaits a [send] that reaches the transport.  The frames handed to
      the transport are logged in a trace, and an oracle gives, for every
      such send still to come, its outcome and what the other handlers do
      to the manager while the sender is suspended.
    - [json.dumps] is applied to a payload before the transport is called;
      it raises [TypeError] on the [user_joined] payload, which holds a
      [UserRole] member.
    - Strings are byte strings (the UTF-8 encoding of a Python [str]).
    - Room ids are strings, as the signatures of the manager declare them.
    - [logger] calls are not modelled. *)

From Stdlib Require Import ZArith Ascii String.
From Stdlib Require Import Floats.PrimFloat Numbers.Cyclic.Int63.Uint63.
From stdpp Require Import gmap strings list fin_maps fin_sets.

Local Open Scope string_scope.
Local Open Scope list_scope.
Local Open Scope Z_scope.

Set Warnings "-clear-no-such-hyp".

(** ** Data model *)

Inductive UserRole := VIEWER | MODERATOR | STREAMER.

#[global] Instance UserRole_eq_dec : EqDecision UserRole.
Proof. solve_decision. Defined.

(** [UserRole(value)]: the enum lookup by value; [None] stands for the
    [ValueError] Python raises on an unknown value. *)
Definition UserRole_of_value (value : string) : option UserRole :=
  if decide (value = "viewer") then Some VIEWER
  else if decide (value = "moderator") then Some MODERATOR
  else if decide (value = "streamer") then Some STREAMER
  else None.

Record User := mkUser {
  user_id : string;
  username : string;
  role : UserRole;
  is_authenticated : bool;
}.

(** [timestamp] is a [datetime]; only its identity matters here, so it is a
    clock reading in [Z]. *)
Record ChatMessage := mkChatMessage {
  message_id : string;
  m_user_id : string;
  m_username : string;
  content : string;
  timestamp : Z;
  m_room_id : string;
  is_moderated : bool;
}.

Record ChatRoom := mkChatRoom {
  room_id : string;
  name : string;
  active_users : Z;
  is_active : bool;
}.

#[global] Instance User_eq_dec : EqDecision User.
Proof. solve_decision. Defined.
#[global] Instance ChatMessage_eq_dec : EqDecision ChatMessage.
Proof. solve_decision. Defined.
#[global] Instance ChatRoom_eq_dec : EqDecision ChatRoom.
Proof. solve_decision. Defined.

(** ** Strings: [str.lower] and the [in] operator *)

(** [str.lower] on the ASCII range: [A]..[Z] are mapped to [a]..[z], every
    other byte is kept.  Python's [str.lower] also maps letters outside
    ASCII, and for a capital sigma the result depends on the neighbours.
    Of the characters outside ASCII only U+0130 and U+212A lower-case into
    ASCII letters (into "i" followed by U+0307, and into "k"), so the two
    functions find the same occurrences of a word made of ASCII letters
    that has no "k" and no "i" at its end.  The words "spam", "toxic" and
    "hate" are such words, and the statements on moderation below are
    about them. *)
Definition lower_ascii (c : ascii) : ascii :=
  let n := nat_of_ascii c in
  if ((65 <=? n)%nat && (n <=? 90)%nat)%bool then ascii_of_nat (n + 32) else c.

Fixpoint lower (s : string) : string :=
  match s with
  | EmptyString => EmptyString
  | String c rest => String (lower_ascii c) (lower rest)
  end.

(** [needle in hay] for two [str]: [needle] occurs as a contiguous run. *)
Fixpoint contains (needle hay : string) : bool :=
  if String.prefix needle hay then true
  else match hay with
       | EmptyString => false
       | String _ rest => contains needle rest
       end.

(** What [in] means: the haystack splits around an occurrence. *)
Definition occurs_in (needle hay : string) : Prop :=
  ∃ before after, hay = before +:+ needle +:+ after.

(** ** Moderation *)

Record MessageModerationService := mkModeration {
  blocked_words : list string;
}.

Definition MessageModerationService_init : MessageModerationService :=
  {| blocked_words := ["spam"; "toxic"; "hate"] |}.

(** The [for word in self.blocked_words] loop: [false] at the first word
    found in the content, [true] when the list is exhausted. *)
Fixpoint scan_blocked (words : list string) (content_lower : string) : bool :=
  match words with
  | [] => true
  | word :: rest =>
      if contains word content_lower then false
      else scan_blocked rest content_lower
  end.

Definition moderate_message (self : MessageModerationService)
    (message : ChatMessage) (user : User) : bool :=
  if decide (role user = MODERATOR ∨ role user = STREAMER) then true
  else
    let content_lower := lower (content message) in
    scan_blocked (blocked_words self) content_lower.

(** ** Availability metrics *)

(** [start_time] is a clock reading that the program never reads back. *)
Record AvailabilityMetrics := mkMetrics {
  message_count : Z;
  failed_messages : Z;
  connection_count : Z;
  disconnection_count : Z;
  start_time : Z;
}.

Definition AvailabilityMetrics_init (now : Z) : AvailabilityMetrics :=
  {| message_count := 0; failed_messages := 0; connection_count := 0;
     disconnection_count := 0; start_time := now |}.

(** The operand conversion of Python's true division [int / int].  Python
    rounds the exact quotient once; here each operand is converted first
    (modulo [2^63]) and the two floats are divided.  The two agree for
    counters below [2^53], where the conversion is exact. *)
Definition int_to_float (n : Z) : float := PrimFloat.of_uint63 (Uint63.of_Z n).

Definition get_uptime_percentage (self : AvailabilityMetrics) : float :=
  let total_attempts := connection_count self + disconnection_count self in
  if decide (total_attempts = 0) then 100%float
  else (int_to_float (connection_count self) / int_to_float total_attempts * 100)%float.

Definition get_message_success_rate (self : AvailabilityMetrics) : float :=
  let total_messages := message_count self + failed_messages self in
  if decide (total_messages = 0) then 100%float
  else (int_to_float (message_count self) / int_to_float total_messages * 100)%float.

(** ** Redis collaborator *)

(** The client as the server sees it: whether a command sent now goes through
    ([reachable]; otherwise the command raises), and the keys written with
    [setex], each with its time to live. *)
Record RedisClient := mkRedisClient {
  reachable : bool;
  stored : list (string * Z * ChatMessage);
}.

(** [redis_client] is [None] when the import or the first ping failed. *)
Record RedisManager := mkRedisManager {
  redis_client : option RedisClient;
}.

Definition store_message (message : ChatMessage) (self : RedisManager)
    : bool * RedisManager :=
  match redis_client self with
  | Some client =>
      if reachable client then
        let key := "messages:" +:+ m_room_id message +:+ ":" +:+ message_id message in
        (true, {| redis_client :=
                    Some {| reachable := true;
                            stored := stored client ++ [(key, 3600, message)] |} |})
      else (false, self)
  | None => (false, self)
  end.

(** ** The manager *)

(** A connection handle; the transport object itself is external. *)
Definition Websocket := nat.

Record WebSocketManager := mkManager {
  connections : gmap string Websocket;
  user_rooms : gmap string string;
  room_users : gmap string (gset string);
  redis_manager : RedisManager;
  moderation_service : MessageModerationService;
  metrics : AvailabilityMetrics;
  active_rooms : gmap string ChatRoom;
}.

Definition WebSocketManager_init (redis : RedisManager) (now : Z) : WebSocketManager :=
  {| connections := ∅; user_rooms := ∅; room_users := ∅;
     redis_manager := redis;
     moderation_service := MessageModerationService_init;
     metrics := AvailabilityMetrics_init now;
     active_rooms := ∅ |}.

Definition set_connections (f : gmap string Websocket → gmap string Websocket)
    (self : WebSocketManager) : WebSocketManager :=
  mkManager (f (connections self)) (user_rooms self) (room_users self)
    (redis_manager self) (moderation_service self) (metrics self) (active_rooms self).

Definition set_user_rooms (f : gmap string string → gmap string string)
    (self : WebSocketManager) : WebSocketManager :=
  mkManager (connections self) (f (user_rooms self)) (room_users self)
    (redis_manager self) (moderation_service self) (metrics self) (active_rooms self).

Definition set_room_users (f : gmap string (gset string) → gmap string (gset string))
    (self : WebSocketManager) : WebSocketManager :=
  mkManager (connections self) (user_rooms self) (f (room_users self))
    (redis_manager self) (moderation_service self) (metrics self) (active_rooms self).

Definition set_redis_manager (r : RedisManager) (self : WebSocketManager) : WebSocketManager :=
  mkManager (connections self) (user_rooms self) (room_users self)
    r (moderation_service self) (metrics self) (active_rooms self).

Definition set_metrics (f : AvailabilityMetrics → AvailabilityMetrics)
    (self : WebSocketManager) : WebSocketManager :=
  mkManager (connections self) (user_rooms self) (room_users self)
    (redis_manager self) (moderation_service self) (f (metrics self)) (active_rooms self).

Definition set_active_rooms (f : gmap string ChatRoom → gmap string ChatRoom)
    (self : WebSocketManager) : WebSocketManager :=
  mkManager (connections self) (user_rooms self) (room_users self)
    (redis_manager self) (moderation_service self) (metrics self) (f (active_rooms self)).

Definition set_active_users (n : Z) (room : ChatRoom) : ChatRoom :=
  {| room_id := room_id room; name := name room; active_users := n;
     is_active := is_active room |}.

Definition incr_connection_count (m : AvailabilityMetrics) : AvailabilityMetrics :=
  mkMetrics (message_count m) (failed_messages m) (connection_count m + 1)
    (disconnection_count m) (start_time m).

Definition incr_disconnection_count (m : AvailabilityMetrics) : AvailabilityMetrics :=
  mkMetrics (message_count m) (failed_messages m) (connection_count m)
    (disconnection_count m + 1) (start_time m).

Definition incr_message_count (m : AvailabilityMetrics) : AvailabilityMetrics :=
  mkMetrics (message_count m + 1) (failed_messages m) (connection_count m)
    (disconnection_count m) (start_time m).

Definition incr_failed_messages (m : AvailabilityMetrics) : AvailabilityMetrics :=
  mkMetrics (message_count m) (failed_messages m + 1) (connection_count m)
    (disconnection_count m) (start_time m).

(** ** Computations: state and exceptions *)

Inductive Exn := KeyError | RuntimeError | TypeError | ConnectionClosed | TransportError.

Inductive Result (A : Type) :=
  | Ok (a : A)
  | Raise (e : Exn).
Arguments Ok {A} a.
Arguments Raise {A} e.

(** A computation over a state [S]: it returns or raises, and in both cases
    leaves the state as mutated so far. *)
Definition Comp (S A : Type) : Type := S → Result A * S.

Definition ret {S A} (a : A) : Comp S A := λ s, (Ok a, s).

Definition bind {S A B} (c : Comp S A) (k : A → Comp S B) : Comp S B :=
  λ s, match c s with
       | (Ok a, s') => k a s'
       | (Raise e, s') => (Raise e, s')
       end.

Definition raise {S A} (e : Exn) : Comp S A := λ s, (Raise e, s).

Definition gets {S A} (f : S → A) : Comp S A := λ s, (Ok (f s), s).

Definition modify {S} (f : S → S) : Comp S unit := λ s, (Ok tt, f s).

(** [try: c except Exception as e: handler e]. *)
Definition try_except {S A} (c : Comp S A) (handler : Exn → Comp S A) : Comp S A :=
  λ s, match c s with
       | (Ok a, s') => (Ok a, s')
       | (Raise e, s') => handler e s'
       end.

(** The outcome of [c] as a value. *)
Definition attempt {S A} (c : Comp S A) : Comp S (Result A) :=
  λ s, match c s with
       | (r, s') => (Ok r, s')
       end.

Declare Scope comp_scope.
Delimit Scope comp_scope with comp.
Notation "x <- c ;; k" := (bind c (λ x, k))
  (at level 100, c at next level, right associativity) : comp_scope.
Notation "c ;; k" := (bind c (λ _, k))
  (at level 100, right associativity) : comp_scope.
Local Open Scope comp_scope.

Fixpoint for_each {S A} (l : list A) (body : A → Comp S unit) : Comp S unit :=
  match l with
  | [] => ret tt
  | x :: rest => body x ;; for_each rest body
  end.

(** ** Registry mutations *)

(** [register_connection] up to its first suspension point: every statement
    before the [await].  [self.active_rooms[room_id]] raises [KeyError] when
    the room has a member set but no directory entry. *)
Definition register_prefix (websocket : Websocket) (user : User) (room_id : string)
    : Comp WebSocketManager unit :=
  modify (set_connections <[user_id user := websocket]>) ;;
  modify (set_user_rooms <[user_id user := room_id]>) ;;
  known <- gets (λ self, room_users self !! room_id) ;;
  (if known is None then
     modify (set_room_users <[room_id := ∅]>) ;;
     modify (set_active_rooms
               <[room_id := mkChatRoom room_id ("Room " +:+ room_id) 0 true]>)
   else ret tt) ;;
  modify (set_room_users (alter (λ members, members ∪ {[user_id user]}) room_id)) ;;
  entry <- gets (λ self, active_rooms self !! room_id) ;;
  match entry with
  | None => raise KeyError
  | Some room =>
      modify (set_active_rooms <[room_id := set_active_users (active_users room + 1) room]>) ;;
      modify (set_metrics incr_connection_count)
  end.

(** [unregister_connection]: with a string in [user_rooms] no statement of
    its body can raise, so the [try] is transparent, and nothing in it is
    awaited. *)
Definition unregister_connection (user_id : string) (self : WebSocketManager)
    : WebSocketManager :=
  match connections self !! user_id with
  | None => self
  | Some _ =>
      let self1 :=
        match user_rooms self !! user_id with
        | Some room_id =>
            if decide (room_id ≠ "") then
              match room_users self !! room_id with
              | Some members =>
                  let self' :=
                    set_room_users <[room_id := members ∖ {[user_id]}]> self in
                  match active_rooms self' !! room_id with
                  | Some room =>
                      set_active_rooms
                        <[room_id := set_active_users (Z.max 0 (active_users room - 1)) room]>
                        self'
                  | None => self'
                  end
              | None => self
              end
            else self
        | None => self
        end in
      set_user_rooms (delete user_id) (set_connections (delete user_id) self1)
  end.

(** The targets a broadcast makes a send for: not the excluded user, and
    with a connection handle. *)
Definition deliverable (self : WebSocketManager) (exclude_user : option string)
    (targets : list string) : list string :=
  filter (λ uid, exclude_user ≠ Some uid ∧ is_Some (connections self !! uid)) targets.

(** The cleanup loop [for user_id in failed_connections]. *)
Definition unregister_all (uids : list string) (self : WebSocketManager)
    : WebSocketManager :=
  foldl (λ self' uid, unregister_connection uid self') self uids.

(** A whole [register_connection], as the step of another handler.  Its
    broadcast carries the [user_joined] payload, on which [json.dumps]
    raises before any transport is called: each member of the room with a
    connection, the new user apart, is recorded as failed, nothing is
    awaited, and the cleanup loop deregisters them.  The call therefore
    runs without being suspended; [register_connection_join] below shows
    that [register_connection] is this function of the manager. *)
Definition join (websocket : Websocket) (user : User) (room_id : string)
    (self : WebSocketManager) : WebSocketManager :=
  match register_prefix websocket user room_id self with
  | (Ok _, self1) =>
      match active_rooms self1 !! room_id with
      | None => set_metrics incr_disconnection_count self1
      | Some _ =>
          match room_users self1 !! room_id with
          | None => self1
          | Some members =>
              unregister_all
                (deliverable self1 (Some (user_id user)) (elements members)) self1
          end
      end
  | (Raise _, self1) => set_metrics incr_disconnection_count self1
  end.

(** ** System status *)

Record SystemStatus := mkStatus {
  st_uptime_percentage : float;
  st_message_success_rate : float;
  st_active_connections : Z;
  st_active_rooms : Z;
  st_total_messages : Z;
  st_failed_messages : Z;
  st_redis_available : bool;
}.

Definition get_system_status (self : WebSocketManager) : SystemStatus :=
  {| st_uptime_percentage := get_uptime_percentage (metrics self);
     st_message_success_rate := get_message_success_rate (metrics self);
     st_active_connections := Z.of_nat (size (connections self));
     st_active_rooms := Z.of_nat (size (active_rooms self));
     st_total_messages := message_count (metrics self);
     st_failed_messages := failed_messages (metrics self);
     st_redis_available := bool_decide (is_Some (redis_client (redis_manager self))) |}.

(** ** Transport, trace and interleaving *)

(** The frames the server sends, by their [type] tag. *)
Inductive Payload :=
  | user_joined (user : User) (n_active_users : Z)
  | chat_message (message : ChatMessage)
  | connection_confirmed (uid : string) (room : string)
  | system_status_response (status : SystemStatus).

(** [json.dumps(payload)] returns for a payload made of strings, numbers
    and booleans.  The [user_joined] payload holds [asdict(user)], whose
    [role] is a member of the plain [Enum] [UserRole]: [json.dumps] raises
    [TypeError] on it. *)
Definition serialisable (payload : Payload) : bool :=
  match payload with
  | user_joined _ _ => false
  | _ => true
  end.

(** How an awaited [send] ends: it returns, raises
    [websockets.exceptions.ConnectionClosed], or raises another exception. *)
Inductive SendOutcome := Delivered | Closed | Failed.

(** What the handlers of the other connections can do to the manager while
    this one is suspended in a [send], each between two suspension points
    of their own: a whole [register_connection]; an
    [unregister_connection] (their [finally] clause, or the cleanup after
    a broadcast of theirs); and from their [handle_chat_message], the
    store of a message and the count of a message delivered or failed. *)
Inductive EnvAction :=
  | env_register (websocket : Websocket) (user : User) (room : string)
  | env_unregister (uid : string)
  | env_store (message : ChatMessage)
  | env_count_message
  | env_count_failure.

Definition env_step (self : WebSocketManager) (a : EnvAction) : WebSocketManager :=
  match a with
  | env_register websocket user room => join websocket user room self
  | env_unregister uid => unregister_connection uid self
  | env_store message =>
      set_redis_manager (snd (store_message message (redis_manager self))) self
  | env_count_message => set_metrics incr_message_count self
  | env_count_failure => set_metrics incr_failed_messages self
  end.

(** One frame handed to the transport: for which user, on which handle,
    what, and how the send ended. *)
Record SendEvent := mkEvent {
  ev_user : string;
  ev_sock : Websocket;
  ev_payload : Payload;
  ev_outcome : SendOutcome;
}.

(** [trace] lists the frames handed to the transport so far, oldest first.
    [oracle] gives for each such send still to come its outcome and the
    actions of the other handlers during the suspension; once it is used
    up, sends succeed undisturbed. *)
Record World := mkWorld {
  manager : WebSocketManager;
  trace : list SendEvent;
  oracle : list (SendOutcome * list EnvAction);
}.

Definition on_manager {A} (c : Comp WebSocketManager A) : Comp World A :=
  λ w, match c (manager w) with
       | (r, self') => (r, mkWorld self' (trace w) (oracle w))
       end.

Definition outcome_result (o : SendOutcome) : Result unit :=
  match o with
  | Delivered => Ok tt
  | Closed => Raise ConnectionClosed
  | Failed => Raise TransportError
  end.

(** [await websocket.send(json.dumps(payload))]: the argument is evaluated
    first, and when [json.dumps] raises the transport is not called, so
    that nothing is handed over and nothing is awaited. *)
Definition send (uid : string) (websocket : Websocket) (payload : Payload)
    : Comp World unit :=
  if serialisable payload then
    λ w, match oracle w with
         | [] =>
             (Ok tt,
              mkWorld (manager w) (trace w ++ [mkEvent uid websocket payload Delivered]) [])
         | (outcome, others) :: rest =>
             (outcome_result outcome,
              mkWorld (foldl env_step (manager w) others)
                (trace w ++ [mkEvent uid websocket payload outcome]) rest)
         end
  else raise TypeError.

(** ** Broadcast *)

(** The [for user_id in self.room_users[room_id]] loop, on the live set.
    The set iterator remembers the size [used] the set had when the loop
    started and raises [RuntimeError] ("Set changed size during iteration")
    from any later [next] that finds another size; [k] is the number of
    entries it has still to yield.  The room's set object is never replaced
    in [room_users], so looking it up again by [room_id] reads the set the
    iterator holds.  The iteration order is that of [elements]. *)
Fixpoint deliver_loop (k used : nat) (room_id : string) (message : Payload)
    (exclude_user : option string) (failed_connections : list string)
    (successful_sends : Z) : Comp World (list string * Z) :=
  members <- gets (λ w, default ∅ (room_users (manager w) !! room_id)) ;;
  if decide (size members ≠ used) then raise RuntimeError
  else
    match k with
    | O => ret (failed_connections, successful_sends)
    | S k' =>
        match elements members !! (used - k)%nat with
        | None => ret (failed_connections, successful_sends)
        | Some uid =>
            if decide (exclude_user = Some uid) then
              deliver_loop k' used room_id message exclude_user
                failed_connections successful_sends
            else
              handle <- gets (λ w, connections (manager w) !! uid) ;;
              match handle with
              | None =>
                  deliver_loop k' used room_id message exclude_user
                    failed_connections successful_sends
              | Some websocket =>
                  r <- attempt (send uid websocket message) ;;
                  match r with
                  | Ok _ =>
                      deliver_loop k' used room_id message exclude_user
                        failed_connections (successful_sends + 1)
                  | Raise _ =>
                      deliver_loop k' used room_id message exclude_user
                        (failed_connections ++ [uid]) successful_sends
                  end
              end
        end
    end.

(** The value is what the final log line reports, with the list of failed
    users; [None] for the early [return] on an unknown room. *)
Definition broadcast_to_room (room_id : string) (message : Payload)
    (exclude_user : option string) : Comp World (option (Z * list string)) :=
  known <- gets (λ w, room_users (manager w) !! room_id) ;;
  match known with
  | None => ret None
  | Some members =>
      res <- deliver_loop (size members) (size members) room_id message
               exclude_user [] 0 ;;
      for_each (fst res)
        (λ uid, on_manager (modify (unregister_connection uid))) ;;
      ret (Some (snd res, fst res))
  end.

(** ** Registration and chat messages *)

Definition register_connection (websocket : Websocket) (user : User)
    (room_id : string) : Comp World unit :=
  try_except
    (on_manager (register_prefix websocket user room_id) ;;
     entry <- gets (λ w, active_rooms (manager w) !! room_id) ;;
     match entry with
     | None => raise KeyError
     | Some room =>
         broadcast_to_room room_id (user_joined user (active_users room))
           (Some (user_id user)) ;;
         ret tt
     end)
    (λ _, on_manager (modify (set_metrics incr_disconnection_count))).

(** The [ChatMessage(...)] built for a send: [fresh_id] and [now] are the
    results of [uuid.uuid4()] and [datetime.now()], and the room is
    [self.user_rooms.get(user.user_id, "")]. *)
Definition new_message (user : User) (text : string) (fresh_id : string) (now : Z)
    (rooms : gmap string string) : ChatMessage :=
  {| message_id := fresh_id; m_user_id := user_id user;
     m_username := username user; content := text; timestamp := now;
     m_room_id := default "" (rooms !! user_id user);
     is_moderated := false |}.

Definition handle_chat_message (user : User) (text : string)
    (fresh_id : string) (now : Z) : Comp World bool :=
  try_except
    (rooms <- gets (λ w, user_rooms (manager w)) ;;
     let message := new_message user text fresh_id now rooms in
     svc <- gets (λ w, moderation_service (manager w)) ;;
     if negb (moderate_message svc message user) then ret false
     else
       on_manager (λ self,
         let '(_, redis') := store_message message (redis_manager self) in
         (Ok tt, set_redis_manager redis' self)) ;;
       broadcast_to_room (m_room_id message) (chat_message message) None ;;
       on_manager (modify (set_metrics incr_message_count)) ;;
       ret true)
    (λ _, on_manager (modify (set_metrics incr_failed_messages)) ;; ret false).

(** ** Connection handler *)

(** The first frame after [json.loads], for a frame that is an object
    whose [room_id], when present, is a string: each key may be absent.
    ([handle_client] does not check the type of [room_id]; a value that
    is not a string is outside this model.) *)
Record AuthData := mkAuth {
  auth_username : option string;
  auth_role : option string;
  auth_room_id : option string;
}.

(** [handle_client] from its start up to the receive loop.  [auth] is
    [None] when no frame arrives or it is not JSON; [fresh_id] is the
    result of [uuid.uuid4()].  The value is the user when the handler
    enters its loop, and [None] when it has ended: before a user was made
    (nothing to clean up) or, after a failed confirmation, through the
    [finally] clause. *)
Definition client_connect (websocket : Websocket) (auth : option AuthData)
    (fresh_id : string) : Comp World (option User) :=
  match auth with
  | None => ret None
  | Some auth_data =>
      match UserRole_of_value (default "viewer" (auth_role auth_data)) with
      | None => ret None
      | Some r =>
          let user :=
            {| user_id := fresh_id;
               username := default "Anonymous" (auth_username auth_data);
               role := r; is_authenticated := true |} in
          let room_id := default "general" (auth_room_id auth_data) in
          register_connection websocket user room_id ;;
          sent <- attempt (send (user_id user) websocket
                             (connection_confirmed (user_id user) room_id)) ;;
          match sent with
          | Ok _ => ret (Some user)
          | Raise _ =>
              on_manager (modify (unregister_connection (user_id user))) ;;
              ret None
          end
      end
  end.

(** An inbound frame of the receive loop: not JSON, or an object with its
    [type] and [content] keys when present. *)
Inductive InFrame :=
  | malformed
  | typed (type_tag : option string) (text : option string).

(** One turn of the [async for] body; every exception is caught inside. *)
Definition client_frame (websocket : Websocket) (user : User) (frame : InFrame)
    (fresh_id : string) (now : Z) : Comp World unit :=
  match frame with
  | malformed => ret tt
  | typed type_tag text =>
      if decide (type_tag = Some "chat_message") then
        handle_chat_message user (default "" text) fresh_id now ;; ret tt
      else if decide (type_tag = Some "system_status") then
        status <- gets (λ w, get_system_status (manager w)) ;;
        attempt (send (user_id user) websocket (system_status_response status)) ;;
        ret tt
      else ret tt
  end.

(** The [finally] clause for a handler that made a user. *)
Definition client_close (user : User) : Comp World unit :=
  on_manager (modify (unregister_connection (user_id user))).

(** ** The broadcast as the spec words it *)

(** The spec's broadcast, for comparison with [broadcast_to_room]: the
    targets are a copy of the member set taken at call time, so the pass
    neither looks at the live set again nor can raise from it. *)
Fixpoint deliver_snapshot (targets : list string) (message : Payload)
    (exclude_user : option string) (failed_connections : list string)
    (successful_sends : Z) : Comp World (list string * Z) :=
  match targets with
  | [] => ret (failed_connections, successful_sends)
  | uid :: rest =>
      if decide (exclude_user = Some uid) then
        deliver_snapshot rest message exclude_user failed_connections successful_sends
      else
        handle <- gets (λ w, connections (manager w) !! uid) ;;
        match handle with
        | None =>
            deliver_snapshot rest message exclude_user failed_connections
              successful_sends
        | Some websocket =>
            r <- attempt (send uid websocket message) ;;
            match r with
            | Ok _ =>
                deliver_snapshot rest message exclude_user failed_connections
                  (successful_sends + 1)
            | Raise _ =>
                deliver_snapshot rest message exclude_user
                  (failed_connections ++ [uid]) successful_sends
            end
        end
  end.

Definition broadcast_snapshot (room_id : string) (message : Payload)
    (exclude_user : option string) : Comp World (option (Z * list string)) :=
  known <- gets (λ w, room_users (manager w) !! room_id) ;;
  match known with
  | None => ret None
  | Some members =>
      res <- deliver_snapshot (elements members) message exclude_user [] 0 ;;
      for_each (fst res)
        (λ uid, on_manager (modify (unregister_connection uid))) ;;
      ret (Some (snd res, fst res))
  end.

(** ** Vocabulary of the statements *)

#[global] Instance SendOutcome_eq_dec : EqDecision SendOutcome.
Proof. solve_decision. Defined.

(** An oracle is quiet when no other handler acts during the sends it
    describes. *)
Definition quiet (o : list (SendOutcome * list EnvAction)) : Prop :=
  Forall (λ entry, snd entry = []) o.

#[global] Instance quiet_dec o : Decision (quiet o).
Proof. unfold quiet. apply _. Defined.

(** The outcome the oracle holds for the next send, and what the other
    handlers do during it. *)
Definition next_outcome (o : list (SendOutcome * list EnvAction)) : SendOutcome :=
  match o with
  | [] => Delivered
  | (outcome, _) :: _ => outcome
  end.

Definition next_actions (o : list (SendOutcome * list EnvAction)) : list EnvAction :=
  match o with
  | [] => []
  | (_, others) :: _ => others
  end.

(** The users whose send did not go through, and the number of sends that
    did, among some events of the trace. *)
Definition failures (events : list SendEvent) : list string :=
  ev_user <$> filter (λ e, ev_outcome e ≠ Delivered) events.

Definition successes (events : list SendEvent) : Z :=
  Z.of_nat (length (filter (λ e, ev_outcome e = Delivered) events)).

(** Event [e] is the send of [message] to [uid] on its registered handle. *)
Definition delivery_of (self : WebSocketManager) (message : Payload)
    (uid : string) (e : SendEvent) : Prop :=
  ev_user e = uid ∧ connections self !! uid = Some (ev_sock e) ∧ ev_payload e = message.

(** A registry operation as the connection handler issues it. *)
Inductive RegistryOp :=
  | op_register (websocket : Websocket) (user : User) (room : string)
  | op_unregister (uid : string).

Definition run_op (op : RegistryOp) : Comp World unit :=
  match op with
  | op_register websocket user room => register_connection websocket user room
  | op_unregister uid => on_manager (modify (unregister_connection uid))
  end.

Definition run_ops (ops : list RegistryOp) : Comp World unit := for_each ops run_op.

(** The user ids that operations, or the other handlers' actions in an
    oracle, register. *)
Definition op_ids (ops : list RegistryOp) : list string :=
  omap (λ op, match op with
              | op_register _ user _ => Some (user_id user)
              | op_unregister _ => None
              end) ops.

Definition env_ids (actions : list EnvAction) : list string :=
  omap (λ a, match a with
             | env_register _ user _ => Some (user_id user)
             | _ => None
             end) actions.

Definition oracle_ids (o : list (SendOutcome * list EnvAction)) : list string :=
  concat (map (λ entry, env_ids (snd entry)) o).

Definition initial_world (redis : RedisManager) (now : Z)
    (o : list (SendOutcome * list EnvAction)) : World :=
  mkWorld (WebSocketManager_init redis now) [] o.

(** Every room with a member set has a directory entry. *)
Definition directory_covers (self : WebSocketManager) : Prop :=
  ∀ room, is_Some (room_users self !! room) → is_Some (active_rooms self !! room).

(** No room has a negative live-member count. *)
Definition counts_nonneg (self : WebSocketManager) : Prop :=
  ∀ room r, active_rooms self !! room = Some r → 0 ≤ active_users r.

(** The two together are inductive. *)
Definition sound (self : WebSocketManager) : Prop :=
  directory_covers self ∧ counts_nonneg self.

(** Invariant I2 of the registry, with what it needs to be inductive: the
    member sets and the directory have the same rooms, each count is the
    size of the member set, and a connected user is in the member set of
    the room recorded for it. *)
Record registry_ok (self : WebSocketManager) : Prop := mk_registry_ok {
  ok_directory : ∀ room,
    is_Some (room_users self !! room) ↔ is_Some (active_rooms self !! room);
  ok_count : ∀ room members r,
    room_users self !! room = Some members →
    active_rooms self !! room = Some r →
    active_users r = Z.of_nat (size members);
  ok_member : ∀ uid room,
    is_Some (connections self !! uid) →
    user_rooms self !! uid = Some room →
    ∃ members, room_users self !! room = Some members ∧ uid ∈ members;
}.

(** [uid] is in no member set. *)
Definition unused (uid : string) (self : WebSocketManager) : Prop :=
  ∀ room members, room_users self !! room = Some members → uid ∉ members.

(** The registry is consistent, and the user ids that the oracle's actions
    and the operations [fut] still to run will register are pairwise
    distinct and in no member set yet. *)
Definition consistent (fut : list string) (w : World) : Prop :=
  registry_ok (manager w)
  ∧ NoDup (oracle_ids (oracle w) ++ fut)
  ∧ Forall (λ uid, unused uid (manager w)) (oracle_ids (oracle w) ++ fut).

(** In [events], the confirmation sent to [uid] comes before every notice
    that [uid] joined. *)
Definition confirmation_first (uid : string) (events : list SendEvent) : Prop :=
  ∀ i j e1 e2 room user n,
    events !! i = Some e1 → ev_payload e1 = connection_confirmed uid room →
    events !! j = Some e2 → ev_payload e2 = user_joined user n →
    user_id user = uid →
    (i < j)%nat.

(** The registry after the statements of [register_prefix] have all run. *)
Definition registered (websocket : Websocket) (user : User) (room : string)
    (self : WebSocketManager) : WebSocketManager :=
  let members := default ∅ (room_users self !! room) in
  let entry :=
    if room_users self !! room is Some _
    then default (mkChatRoom room ("Room " +:+ room) 0 true) (active_rooms self !! room)
    else mkChatRoom room ("Room " +:+ room) 0 true in
  {| connections := <[user_id user := websocket]> (connections self);
     user_rooms := <[user_id user := room]> (user_rooms self);
     room_users := <[room := members ∪ {[user_id user]}]> (room_users self);
     redis_manager := redis_manager self;
     moderation_service := moderation_service self;
     metrics := incr_connection_count (metrics self);
     active_rooms := <[room := set_active_users (active_users entry + 1) entry]>
                       (active_rooms self) |}.

(** [uid] is in the member set of [room] and has no connection. *)
Definition unconnected_member (uid room : string) (self : WebSocketManager) : Prop :=
  connections self !! uid = None
  ∧ ∃ members, room_users self !! room = Some members ∧ uid ∈ members.

(** Case-insensitive matching, said without [lower]: byte [c] is the
    letter [w] in either case when it is [w], or when [w] is one of
    [a]..[z] and [c] is the capital 32 places before it. *)
Definition same_letter (c w : ascii) : Prop :=
  c = w
  ∨ ((97 ≤ nat_of_ascii w)%nat ∧ (nat_of_ascii w ≤ 122)%nat
     ∧ (nat_of_ascii c + 32)%nat = nat_of_ascii w).

(** [s] spells [word], letter by letter, in any mix of cases. *)
Inductive spells : string → string → Prop :=
  | spells_nil : spells "" ""
  | spells_cons c w s word :
      same_letter c w → spells s word → spells (String c s) (String w word).

(** [hay] contains [word] in some mix of cases. *)
Definition occurs_ignoring_case (word hay : string) : Prop :=
  ∃ before s after, hay = before +:+ s +:+ after ∧ spells s word.

(** The actions of another handler that are a join or a leave; the others
    are steps of its [handle_chat_message]. *)
Definition registry_action (a : EnvAction) : Prop :=
  match a with
  | env_register _ _ _ | env_unregister _ => True
  | _ => False
  end.

#[global] Instance registry_action_dec a : Decision (registry_action a).
Proof. destruct a; apply _. Defined.

(** During the sends the oracle describes, no other handler is inside a
    [handle_chat_message]: the others only join and leave. *)
Definition no_other_chat (o : list (SendOutcome * list EnvAction)) : Prop :=
  Forall (λ entry, Forall registry_action (snd entry)) o.

#[global] Instance no_other_chat_dec o : Decision (no_other_chat o).
Proof. unfold no_other_chat. apply _. Defined.

(** ** Example runs *)

Definition alice : User := mkUser "a" "alice" VIEWER true.
Definition bob : User := mkUser "b" "bob" VIEWER true.
Definition carol : User := mkUser "c" "carol" VIEWER true.
Definition xena : User := mkUser "x" "xena" VIEWER true.
Definition yves : User := mkUser "y" "yves" VIEWER true.

Definition auth_alice : AuthData := mkAuth (Some "alice") (Some "viewer") (Some "R1").
Definition auth_bob : AuthData := mkAuth (Some "bob") None (Some "R1").

Definition no_redis : RedisManager := mkRedisManager None.

(** Alice has joined room R1 through [handle_client]; [o] describes the
    sends after her confirmation. *)
Definition alice_in_room (o : list (SendOutcome * list EnvAction)) : World :=
  snd (client_connect 1%nat (Some auth_alice) "a"
         (initial_world no_redis 0 ((Delivered, []) :: o))).

(** Then Bob has joined R1 through [handle_client], which deregisters
    Alice while her handler is still reading frames; [o] describes the
    sends after his confirmation. *)
Definition bob_joined (o : list (SendOutcome * list EnvAction)) : World :=
  snd (client_connect 2%nat (Some auth_bob) "b" (alice_in_room ((Delivered, []) :: o))).

(** Then Alice's connection has closed. *)
Definition alice_gone : World := snd (client_close alice (bob_joined [])).


(** Xena has joined the room with the empty id through [handle_client];
    [o] describes the sends after her confirmation. *)
Definition xena_in_empty_room (o : list (SendOutcome * list EnvAction)) : World :=
  snd (client_connect 1%nat (Some (mkAuth (Some "xena") None (Some ""))) "x"
         (initial_world no_redis 0 ((Delivered, []) :: o))).

(** Xena joins the room with the empty id and leaves, then Yves joins it;
    [o] describes the sends after his confirmation. *)
Definition xena_left_behind (o : list (SendOutcome * list EnvAction)) : World :=
  let w1 := snd (client_connect 1%nat (Some (mkAuth (Some "xena") None (Some ""))) "x"
                   (initial_world no_redis 0 ((Delivered, []) :: (Delivered, []) :: o))) in
  let w2 := snd (client_close xena w1) in
  snd (client_connect 2%nat (Some (mkAuth (Some "yves") None (Some ""))) "y" w2).

Definition hello_from_alice (w : World) : ChatMessage :=
  new_message alice "hello" "m1" 5 (user_rooms (manager w)).

(** ** The handler as a whole, and more vocabulary *)

(** [handle_client] for one connection from accept to close: the first
    frame, then the frames of [inbox] in the order they arrive (each with
    the [uuid4] and the clock reading a chat message would take), then
    the end of the [async for] (a normal close or [ConnectionClosed]) and
    the [finally] clause. *)
Definition handle_client (websocket : Websocket) (auth : option AuthData)
    (fresh_id : string) (inbox : list (InFrame * string * Z)) : Comp World unit :=
  entered <- client_connect websocket auth fresh_id ;;
  match entered with
  | None => ret tt
  | Some user =>
      for_each inbox
        (λ item, client_frame websocket user (fst (fst item)) (snd (fst item)) (snd item)) ;;
      client_close user
  end.

(** No counter of [m'] is below the one of [m]. *)
Definition metrics_le (m m' : AvailabilityMetrics) : Prop :=
  message_count m ≤ message_count m'
  ∧ failed_messages m ≤ failed_messages m'
  ∧ connection_count m ≤ connection_count m'
  ∧ disconnection_count m ≤ disconnection_count m'.

(** An oracle is calm when the transport delivers every send it describes
    and no other handler acts meanwhile. *)
Definition calm (o : list (SendOutcome * list EnvAction)) : Prop :=
  Forall (λ entry, entry = (Delivered, [])) o.

#[global] Instance EnvAction_eq_dec : EqDecision EnvAction.
Proof. solve_decision. Defined.

#[global] Instance calm_dec o : Decision (calm o).
Proof. unfold calm. apply _. Defined.

(** The room ids that operations, or the other handlers' actions in an
    oracle, register into. *)
Definition op_rooms (ops : list RegistryOp) : list string :=
  omap (λ op, match op with
              | op_register _ _ room => Some room
              | op_unregister _ => None
              end) ops.

Definition env_rooms (actions : list EnvAction) : list string :=
  omap (λ a, match a with
             | env_register _ _ room => Some room
             | _ => None
             end) actions.

Definition oracle_rooms (o : list (SendOutcome * list EnvAction)) : list string :=
  concat (map (λ entry, env_rooms (snd entry)) o).

(** No room has the empty id, and every member of a room's set is a
    connected user recorded in that room. *)
Definition members_recorded (self : WebSocketManager) : Prop :=
  room_users self !! "" = None
  ∧ ∀ uid room members,
      room_users self !! room = Some members → uid ∈ members →
      user_rooms self !! uid = Some room ∧ is_Some (connections self !! uid).

(** Alice registered in room R1 from the initial state, with [o] describing
    the sends to come. *)
Definition alice_registered (o : list (SendOutcome * list EnvAction)) : World :=
  snd (register_connection 1%nat alice "R1" (initial_world no_redis 0 o)).

Definition redis_up : RedisManager := mkRedisManager (Some (mkRedisClient true [])).

Definition alice_with_redis : World :=
  snd (register_connection 1%nat alice "R1" (initial_world redis_up 0 [])).

(** ** Substring facts *)

Lemma append_nil_l (s : string) : "" +:+ s = s.
Proof. reflexivity. Qed.

Lemma append_cons_l (c : ascii) (s t : string) :
  String c s +:+ t = String c (s +:+ t).
Proof. reflexivity. Qed.

Lemma prefix_occurs (p s : string) :
  String.prefix p s = true ↔ ∃ after, s = p +:+ after.
Proof.
  revert s. induction p as [|c p IH]; intros [|d s]; simpl.
  - split; [intros _; by exists "" | done].
  - split; [intros _; by exists (String d s) | done].
  - split; [done | intros [after Heq]; by rewrite append_cons_l in Heq].
  - destruct (Ascii.ascii_dec c d) as [->|Hne].
    + rewrite IH. split; intros [after Heq]; exists after;
        rewrite append_cons_l in *; congruence.
    + split; [done |]. intros [after Heq].
      rewrite append_cons_l in Heq. congruence.
Qed.

Lemma contains_unfold (needle hay : string) :
  contains needle hay =
  if String.prefix needle hay then true
  else match hay with
       | EmptyString => false
       | String _ rest => contains needle rest
       end.
Proof. by destruct hay. Qed.

Lemma contains_occurs (needle hay : string) :
  contains needle hay = true ↔ occurs_in needle hay.
Proof.
  unfold occurs_in. induction hay as [|c hay IH]; rewrite contains_unfold.
  - destruct (String.prefix needle "") eqn:Hp.
    + apply prefix_occurs in Hp as [after Heq].
      split; [intros _; by exists "", after | done].
    + split; [done |]. intros ([|? ?] & after & Heq); [|done].
      rewrite append_nil_l in Heq.
      assert (String.prefix needle "" = true) as Hp'; [|congruence].
      apply prefix_occurs. by exists after.
  - destruct (String.prefix needle (String c hay)) eqn:Hp.
    + apply prefix_occurs in Hp as [after Heq].
      split; [intros _; by exists "", after | done].
    + rewrite IH. split.
      * intros (before & after & ->). by exists (String c before), after.
      * intros ([|d before] & after & Heq).
        -- rewrite append_nil_l in Heq.
           assert (String.prefix needle (String c hay) = true) as Hp'; [|congruence].
           apply prefix_occurs. by exists after.
        -- rewrite append_cons_l in Heq. exists before, after. congruence.
Qed.

Lemma scan_blocked_false (words : list string) (s : string) :
  scan_blocked words s = false ↔ ∃ word, word ∈ words ∧ occurs_in word s.
Proof.
  induction words as [|w words IH]; simpl.
  - split; [done | intros (? & Hin & _); by apply elem_of_nil in Hin].
  - destruct (contains w s) eqn:Hc.
    + split; [intros _ | done]. exists w. split; [left | by apply contains_occurs].
    + rewrite IH. split.
      * intros (word & Hin & Hocc). exists word. split; [by right | done].
      * intros (word & Hin & Hocc). apply elem_of_cons in Hin as [->|Hin].
        -- apply contains_occurs in Hocc. congruence.
        -- by exists word.
Qed.

(** ** Letter case *)

Lemma lower_append (s t : string) : lower (s +:+ t) = lower s +:+ lower t.
Proof.
  induction s as [|c s IH]; [done |].
  rewrite append_cons_l. cbn [lower]. by rewrite append_cons_l, IH.
Qed.

Lemma append_assoc_l (s t u : string) : (s +:+ t) +:+ u = s +:+ (t +:+ u).
Proof.
  induction s as [|c s IH]; [done |].
  by rewrite !append_cons_l, IH.
Qed.

Lemma occurs_in_append (word s before after : string) :
  occurs_in word s → occurs_in word (before +:+ s +:+ after).
Proof.
  intros (b & a & ->). exists (before +:+ b), (a +:+ after).
  by rewrite !append_assoc_l.
Qed.

Lemma lower_ascii_fixed (w : ascii) :
  lower_ascii w = w → ¬ ((65 ≤ nat_of_ascii w)%nat ∧ (nat_of_ascii w ≤ 90)%nat).
Proof.
  unfold lower_ascii. intros Hw [H1 H2].
  apply Nat.leb_le in H1 as H1'. apply Nat.leb_le in H2 as H2'.
  rewrite H1', H2' in Hw. cbn in Hw.
  apply (f_equal nat_of_ascii) in Hw. rewrite nat_ascii_embedding in Hw by lia. lia.
Qed.

Lemma lower_ascii_same_letter (c w : ascii) :
  lower_ascii w = w → lower_ascii c = w ↔ same_letter c w.
Proof.
  intros Hw%lower_ascii_fixed. unfold lower_ascii, same_letter.
  destruct ((65 <=? nat_of_ascii c)%nat && (nat_of_ascii c <=? 90)%nat)%bool eqn:Hup.
  - apply Bool.andb_true_iff in Hup as [H1%Nat.leb_le H2%Nat.leb_le]. split.
    + intros <-. right. rewrite nat_ascii_embedding by lia. lia.
    + intros [->|(H3 & H4 & H5)]; [exfalso; apply Hw; lia |].
      rewrite H5. apply ascii_nat_embedding.
  - apply Bool.andb_false_iff in Hup. split.
    + intros ->. by left.
    + intros [->|(H3 & H4 & H5)]; [done |]. exfalso.
      destruct Hup as [H%Nat.leb_gt|H%Nat.leb_gt]; lia.
Qed.

Lemma lower_spells (s word : string) :
  lower word = word → lower s = word ↔ spells s word.
Proof.
  revert word. induction s as [|c s IH]; intros [|w word] Hword; cbn [lower] in *.
  - split; [constructor | done].
  - split; [done | inversion 1].
  - split; [done | inversion 1].
  - injection Hword as Hw Hword. split.
    + intros [= Hc Hs]. constructor; [by apply lower_ascii_same_letter | by apply IH].
    + inversion 1; subst. f_equal; [by apply lower_ascii_same_letter | by apply IH].
Qed.

Lemma lower_split (t x y : string) :
  lower t = x +:+ y → ∃ t1 t2, t = t1 +:+ t2 ∧ lower t1 = x ∧ lower t2 = y.
Proof.
  revert t. induction x as [|c x IH]; intros t Ht.
  - by exists "", t.
  - destruct t as [|d t]; [done |]. rewrite append_cons_l in Ht. cbn [lower] in Ht.
    injection Ht as Hd Ht. destruct (IH t Ht) as (t1 & t2 & -> & H1 & H2).
    exists (String d t1), t2. rewrite append_cons_l. cbn [lower]. by rewrite Hd, H1.
Qed.

(** Looking for a lower-case word in the lower-cased text is looking for
    it in the text in any mix of cases. *)
Lemma occurs_lower_ignoring_case (word hay : string) :
  lower word = word →
  occurs_in word (lower hay) ↔ occurs_ignoring_case word hay.
Proof.
  intros Hword. split.
  - intros (b & a & Heq).
    apply lower_split in Heq as (before & rest & -> & _ & Hrest).
    apply lower_split in Hrest as (s & after & -> & Hs & _).
    exists before, s, after. split; [done |]. by apply lower_spells.
  - intros (before & s & after & -> & Hs). apply lower_spells in Hs; [|done].
    exists (lower before), (lower after). by rewrite !lower_append, Hs.
Qed.

(** ** Moderation decision *)

(** C4.  With the reference word list, [moderate_message] approves every
    message of a moderator or a streamer; for a viewer it rejects exactly
    when the lower-cased content contains "spam", "toxic" or "hate", which
    is exactly when the content contains one of the three words in some
    mix of upper and lower case, and approves otherwise.  The verdict is a
    function of the author's role and the content alone: it reads no
    registry state and changes none. *)
Theorem moderate_message_decision :
  let svc := MessageModerationService_init in
  (∀ (message : ChatMessage) (user : User),
     (role user ≠ VIEWER ∧ moderate_message svc message user = true)
     ∨ (role user = VIEWER
        ∧ (moderate_message svc message user = false
           ↔ ∃ word, word ∈ ["spam"; "toxic"; "hate"]
                     ∧ occurs_in word (lower (content message)))
        ∧ (moderate_message svc message user = false
           ↔ ∃ word, word ∈ ["spam"; "toxic"; "hate"]
                     ∧ occurs_ignoring_case word (content message))
        ∧ (moderate_message svc message user = true
           ↔ ¬ ∃ word, word ∈ ["spam"; "toxic"; "hate"]
                       ∧ occurs_ignoring_case word (content message))))
  ∧ ∃ verdict : UserRole → string → bool,
      ∀ (message : ChatMessage) (user : User),
        moderate_message svc message user = verdict (role user) (content message).
Proof.
  cbv zeta. split.
  - intros message user. unfold moderate_message.
    destruct (role user) eqn:Hrole.
    + right. split; [done |]. rewrite decide_False by naive_solver.
      cbn [blocked_words MessageModerationService_init].
      pose proof (scan_blocked_false ["spam"; "toxic"; "hate"]
                    (lower (content message))) as Hscan.
      assert ((∃ word, word ∈ ["spam"; "toxic"; "hate"]
                       ∧ occurs_in word (lower (content message)))
              ↔ ∃ word, word ∈ ["spam"; "toxic"; "hate"]
                        ∧ occurs_ignoring_case word (content message)) as Hcase.
      { split; intros (word & Hin & Hocc); exists word; (split; [done |]);
          apply occurs_lower_ignoring_case in Hocc; try done;
          repeat (apply elem_of_cons in Hin as [->|Hin]; [done |]);
          by apply elem_of_nil in Hin. }
      split; [done |]. rewrite <- Hcase, <- Hscan.
      split; [done |]. by destruct (scan_blocked _ _).
    + left. split; [done |]. by rewrite decide_True by auto.
    + left. split; [done |]. by rewrite decide_True by auto.
  - exists (λ r c, moderate_message MessageModerationService_init
                     (mkChatMessage "" "" "" c 0 "" false) (mkUser "" "" r true)).
    intros message user. reflexivity.
Qed.

(** ** Lists *)

Lemma filter_ext_in {A} (P Q : A → Prop) `{∀ x, Decision (P x)} `{∀ x, Decision (Q x)}
    (l : list A) :
  (∀ x, x ∈ l → P x ↔ Q x) → filter P l = filter Q l.
Proof.
  induction l as [|x l IH]; intros Hext; [done |].
  rewrite !filter_cons.
  assert (filter P l = filter Q l) as ->
    by (apply IH; intros y Hy; apply Hext; by right).
  destruct (decide (P x)) as [HP|HP].
  - rewrite decide_True; [done |]. apply Hext; [by left | done].
  - rewrite decide_False; [done |]. intros HQ. apply HP, Hext; [by left | done].
Qed.



(** ** Computations step by step *)

Lemma bind_run {S A B} (c : Comp S A) (k : A → Comp S B) (s : S) :
  bind c k s =
  match c s with
  | (Ok a, s') => k a s'
  | (Raise e, s') => (Raise e, s')
  end.
Proof. reflexivity. Qed.

Lemma on_manager_modify (f : WebSocketManager → WebSocketManager) (w : World) :
  on_manager (modify f) w = (Ok tt, mkWorld (f (manager w)) (trace w) (oracle w)).
Proof. reflexivity. Qed.

Lemma for_each_unregister (uids : list string) (w : World) :
  for_each uids (λ uid, on_manager (modify (unregister_connection uid))) w =
  (Ok tt, mkWorld (unregister_all uids (manager w))
            (trace w) (oracle w)).
Proof.
  revert w. induction uids as [|uid uids IH]; intros w.
  - by destruct w.
  - cbn [for_each]. rewrite bind_run, on_manager_modify, IH. reflexivity.
Qed.

(** ** The two ways a send goes *)

Lemma send_serialisable (uid : string) (websocket : Websocket) (payload : Payload)
    (w : World) :
  serialisable payload = true →
  send uid websocket payload w =
  (outcome_result (next_outcome (oracle w)),
   mkWorld (foldl env_step (manager w) (next_actions (oracle w)))
     (trace w ++ [mkEvent uid websocket payload (next_outcome (oracle w))])
     (tail (oracle w))).
Proof.
  intros Hs. unfold send. rewrite Hs. by destruct (oracle w) as [|[outcome others] rest].
Qed.

Lemma send_unserialisable (uid : string) (websocket : Websocket) (payload : Payload)
    (w : World) :
  serialisable payload = false →
  send uid websocket payload w = (Raise TypeError, w).
Proof. intros Hs. unfold send. by rewrite Hs. Qed.

Lemma quiet_next o : quiet o → next_actions o = [].
Proof.
  unfold quiet. destruct o as [|[outcome others] rest]; [done |].
  by intros [? _]%Forall_cons.
Qed.

Lemma quiet_tail o : quiet o → quiet (tail o).
Proof. unfold quiet. destruct o; [done |]. by intros [_ ?]%Forall_cons. Qed.

Lemma send_quiet (uid : string) (websocket : Websocket) (payload : Payload) (w : World) :
  serialisable payload = true →
  quiet (oracle w) →
  send uid websocket payload w =
  (outcome_result (next_outcome (oracle w)),
   mkWorld (manager w)
     (trace w ++ [mkEvent uid websocket payload (next_outcome (oracle w))])
     (tail (oracle w))).
Proof.
  intros Hs Hq. rewrite send_serialisable by done. by rewrite (quiet_next _ Hq).
Qed.

Lemma oracle_ids_next o : oracle_ids o = env_ids (next_actions o) ++ oracle_ids (tail o).
Proof. by destruct o as [|[outcome others] rest]. Qed.

(** ** Invariants carried through a broadcast *)

Section broadcast_invariant.
Variable Inv : World → Prop.
Variable message : Payload.
Variable exclude_user : option string.

Hypothesis Inv_send : ∀ w uid websocket,
  exclude_user ≠ Some uid → Inv w → Inv (snd (send uid websocket message w)).
Hypothesis Inv_unregister : ∀ w uid,
  Inv w → Inv (mkWorld (unregister_connection uid (manager w)) (trace w) (oracle w)).

Lemma deliver_loop_invariant k used room failed ok w :
  Inv w → Inv (snd (deliver_loop k used room message exclude_user failed ok w)).
Proof.
  revert failed ok w. induction k as [|k IH]; intros failed ok w HI.
  - cbn. by destruct (decide _).
  - cbn [deliver_loop]. rewrite bind_run. cbn [gets].
    destruct (decide _); [done |].
    destruct (elements _ !! _) as [uid|]; [|done].
    destruct (decide (exclude_user = Some uid)) as [|Hne]; [by apply IH |].
    rewrite bind_run. cbn [gets].
    destruct (connections (manager w) !! uid) as [websocket|]; [|by apply IH].
    rewrite bind_run. unfold attempt.
    pose proof (Inv_send w uid websocket Hne HI) as HI'.
    destruct (send uid websocket message w) as [[[]|e] w']; by apply IH.
Qed.

Lemma foldl_unregister_invariant uids w :
  Inv w →
  Inv (mkWorld (unregister_all uids (manager w))
         (trace w) (oracle w)).
Proof.
  revert w. induction uids as [|uid uids IH]; intros w HI; [by destruct w |].
  unfold unregister_all. cbn [foldl]. by apply (IH (mkWorld _ _ _)), Inv_unregister.
Qed.

Lemma broadcast_to_room_invariant room w :
  Inv w → Inv (snd (broadcast_to_room room message exclude_user w)).
Proof.
  intros HI. unfold broadcast_to_room. rewrite bind_run. cbn [gets].
  destruct (room_users (manager w) !! room) as [members|]; [|done].
  rewrite bind_run.
  pose proof (deliver_loop_invariant (size members) (size members) room [] 0 w HI) as HI'.
  destruct (deliver_loop _ _ _ _ _ _ _ w) as [[res|e] w1]; [|done].
  rewrite bind_run, for_each_unregister. cbn.
  by apply foldl_unregister_invariant.
Qed.
End broadcast_invariant.

(** ** A pass that nobody disturbs *)

Section quiet_pass.
Variable message : Payload.
Variable exclude_user : option string.
Hypothesis message_serialisable : serialisable message = true.

Lemma deliver_snapshot_quiet targets failed ok w :
  quiet (oracle w) →
  ∃ new,
    deliver_snapshot targets message exclude_user failed ok w =
    (Ok (failed ++ failures new, ok + successes new),
     mkWorld (manager w) (trace w ++ new) (drop (length new) (oracle w)))
    ∧ Forall2 (delivery_of (manager w) message)
        (deliverable (manager w) exclude_user targets) new.
Proof.
  revert failed ok w. induction targets as [|uid rest IH]; intros failed ok w Hq.
  - exists []. split; [|constructor].
    cbn. rewrite !app_nil_r, Z.add_0_r. by destruct w.
  - cbn [deliver_snapshot]. unfold deliverable. rewrite filter_cons.
    destruct (decide (exclude_user = Some uid)) as [Hex|Hex].
    { rewrite decide_False by naive_solver. by apply IH. }
    rewrite bind_run. cbn [gets].
    destruct (connections (manager w) !! uid) as [websocket|] eqn:Hconn.
    2:{ rewrite decide_False by (intros [_ [? ?]]; done). by apply IH. }
    rewrite decide_True by eauto.
    rewrite bind_run. unfold attempt. rewrite send_quiet by done.
    set (e := mkEvent uid websocket message (next_outcome (oracle w))).
    set (w1 := mkWorld (manager w) (trace w ++ [e]) (tail (oracle w))).
    assert (quiet (oracle w1)) as Hq1 by by apply quiet_tail.
    assert (∀ n, drop n (tail (oracle w)) = drop (S n) (oracle w)) as Hdrop
      by (intros n; destruct (oracle w); [by destruct n | done]).
    destruct (next_outcome (oracle w)) eqn:Hout; cbn [outcome_result].
    + destruct (IH failed (ok + 1) w1 Hq1) as (new & -> & Hall).
      exists (e :: new). split; [|by constructor].
      unfold failures, successes. rewrite !filter_cons.
      rewrite decide_False by (subst e; cbn; naive_solver).
      rewrite decide_True by (by subst e).
      subst w1. cbn [manager trace oracle length]. rewrite <- app_assoc, Hdrop.
      do 3 f_equal. lia.
    + destruct (IH (failed ++ [uid]) ok w1 Hq1) as (new & -> & Hall).
      exists (e :: new). split; [|by constructor].
      unfold failures, successes. rewrite !filter_cons.
      rewrite decide_True by (by subst e).
      rewrite decide_False by (by subst e).
      subst w1. cbn [manager trace oracle length]. rewrite <- !app_assoc, Hdrop.
      reflexivity.
    + destruct (IH (failed ++ [uid]) ok w1 Hq1) as (new & -> & Hall).
      exists (e :: new). split; [|by constructor].
      unfold failures, successes. rewrite !filter_cons.
      rewrite decide_True by (by subst e).
      rewrite decide_False by (by subst e).
      subst w1. cbn [manager trace oracle length]. rewrite <- !app_assoc, Hdrop.
      reflexivity.
Qed.

(** Undisturbed, the loop over the live set is the loop over the copy. *)
Lemma deliver_loop_quiet k room members failed ok w :
  quiet (oracle w) →
  room_users (manager w) !! room = Some members →
  (k ≤ size members)%nat →
  deliver_loop k (size members) room message exclude_user failed ok w =
  deliver_snapshot (drop (size members - k) (elements members)) message
    exclude_user failed ok w.
Proof.
  revert failed ok w. induction k as [|k IH]; intros failed ok w Hq Hroom Hk.
  - cbn [deliver_loop]. rewrite bind_run. cbn [gets]. rewrite Hroom. cbn [default]. unfold id.
    rewrite decide_False by naive_solver.
    rewrite Nat.sub_0_r, drop_ge; [done |]. done.
  - cbn [deliver_loop]. rewrite bind_run. cbn [gets]. rewrite Hroom. cbn [default]. unfold id.
    rewrite decide_False by naive_solver.
    assert (size members - S k < length (elements members))%nat as Hlt.
    { change (length (elements members)) with (size members). lia. }
    apply lookup_lt_is_Some in Hlt as [uid Huid]. rewrite Huid.
    rewrite (drop_S _ _ _ Huid).
    replace (S (size members - S k)) with (size members - k)%nat by lia.
    cbn [deliver_snapshot].
    destruct (decide (exclude_user = Some uid)); [apply IH; [done..|lia] |].
    rewrite !bind_run. cbn [gets].
    destruct (connections (manager w) !! uid) as [websocket|]; [|apply IH; [done..|lia]].
    rewrite !bind_run. unfold attempt. rewrite send_quiet by done.
    destruct (outcome_result _) as [[]|?]; apply IH;
      cbn [manager oracle]; auto using quiet_tail; lia.
Qed.
End quiet_pass.

(** ** A pass with a payload that cannot be serialised *)

Section unserialisable_pass.
Variable message : Payload.
Variable exclude_user : option string.
Hypothesis message_unserialisable : serialisable message = false.

(** No send reaches the transport, so the pass is not suspended and
    nothing changes under it: every target it would send to is recorded as
    failed. *)
Lemma deliver_loop_unserialisable k room members failed ok w :
  room_users (manager w) !! room = Some members →
  (k ≤ size members)%nat →
  deliver_loop k (size members) room message exclude_user failed ok w =
  (Ok (failed ++ deliverable (manager w) exclude_user
                   (drop (size members - k) (elements members)), ok), w).
Proof.
  revert failed. induction k as [|k IH]; intros failed Hroom Hk.
  - cbn [deliver_loop]. rewrite bind_run. cbn [gets]. rewrite Hroom. cbn [default]. unfold id.
    rewrite decide_False by naive_solver.
    rewrite Nat.sub_0_r, drop_ge by done. cbn. by rewrite app_nil_r.
  - cbn [deliver_loop]. rewrite bind_run. cbn [gets]. rewrite Hroom. cbn [default]. unfold id.
    rewrite decide_False by naive_solver.
    assert (size members - S k < length (elements members))%nat as Hlt.
    { change (length (elements members)) with (size members). lia. }
    apply lookup_lt_is_Some in Hlt as [uid Huid]. rewrite Huid.
    rewrite (drop_S _ _ _ Huid).
    replace (S (size members - S k)) with (size members - k)%nat by lia.
    unfold deliverable. rewrite filter_cons.
    destruct (decide (exclude_user = Some uid)) as [Hex|Hex].
    { rewrite decide_False by naive_solver. apply IH; [done | lia]. }
    rewrite bind_run. cbn [gets].
    destruct (connections (manager w) !! uid) as [websocket|] eqn:Hconn.
    2:{ rewrite decide_False by (intros [_ [? ?]]; done). apply IH; [done | lia]. }
    rewrite decide_True by eauto.
    rewrite bind_run. unfold attempt. rewrite send_unserialisable by done.
    rewrite IH by (done || lia). unfold deliverable. by rewrite <- app_assoc.
Qed.

Lemma broadcast_to_room_unserialisable room members w :
  room_users (manager w) !! room = Some members →
  broadcast_to_room room message exclude_user w =
  (Ok (Some (0, deliverable (manager w) exclude_user (elements members))),
   mkWorld (unregister_all (deliverable (manager w) exclude_user (elements members))
              (manager w))
     (trace w) (oracle w)).
Proof.
  intros Hroom. unfold broadcast_to_room. rewrite bind_run. cbn [gets].
  rewrite Hroom, bind_run.
  rewrite (deliver_loop_unserialisable _ room members) by done.
  rewrite Nat.sub_diag, drop_0. cbn [app fst snd].
  by rewrite bind_run, for_each_unregister.
Qed.
End unserialisable_pass.

(** ** What [unregister_connection] touches *)

Lemma unregister_connections (uid : string) (self : WebSocketManager) :
  connections (unregister_connection uid self) = delete uid (connections self).
Proof.
  unfold unregister_connection.
  destruct (connections self !! uid) eqn:Hc; [|by rewrite delete_id].
  destruct (user_rooms self !! uid) as [room|]; [|done].
  destruct (decide (room ≠ "")); [|done].
  destruct (room_users self !! room); [|done].
  cbn. by destruct (active_rooms self !! room).
Qed.

Lemma unregister_user_rooms (uid : string) (self : WebSocketManager) :
  user_rooms (unregister_connection uid self) =
  if connections self !! uid is Some _ then delete uid (user_rooms self)
  else user_rooms self.
Proof.
  unfold unregister_connection.
  destruct (connections self !! uid) eqn:Hc; [|done].
  destruct (user_rooms self !! uid) as [room|]; [|done].
  destruct (decide (room ≠ "")); [|done].
  destruct (room_users self !! room); [|done].
  cbn. by destruct (active_rooms self !! room).
Qed.

Lemma unregister_metrics (uid : string) (self : WebSocketManager) :
  metrics (unregister_connection uid self) = metrics self.
Proof.
  unfold unregister_connection.
  destruct (connections self !! uid); [|done].
  destruct (user_rooms self !! uid) as [room|]; [|done].
  destruct (decide (room ≠ "")); [|done].
  destruct (room_users self !! room); [|done].
  cbn. by destruct (active_rooms self !! room).
Qed.

Lemma unregister_absent (uid : string) (self : WebSocketManager) :
  connections self !! uid = None → unregister_connection uid self = self.
Proof. intros Hc. unfold unregister_connection. by rewrite Hc. Qed.

Lemma unregister_all_metrics (uids : list string) (self : WebSocketManager) :
  metrics (unregister_all uids self) = metrics self.
Proof.
  revert self. induction uids as [|uid uids IH]; intros self; [done |].
  unfold unregister_all in *. cbn [foldl]. by rewrite IH, unregister_metrics.
Qed.

Lemma unregister_all_connections_None (uids : list string) (self : WebSocketManager)
    (uid : string) :
  connections self !! uid = None →
  connections (unregister_all uids self) !! uid = None.
Proof.
  revert self. induction uids as [|v uids IH]; intros self Hc; [done |].
  unfold unregister_all in *. cbn [foldl]. apply IH.
  rewrite unregister_connections. by apply lookup_delete_None; right.
Qed.

Lemma unregister_all_user_rooms_None (uids : list string) (self : WebSocketManager)
    (uid : string) :
  user_rooms self !! uid = None →
  user_rooms (unregister_all uids self) !! uid = None.
Proof.
  revert self. induction uids as [|v uids IH]; intros self Hc; [done |].
  unfold unregister_all in *. cbn [foldl]. apply IH.
  rewrite unregister_user_rooms. destruct (connections self !! v); [|done].
  by apply lookup_delete_None; right.
Qed.

Lemma unregister_all_gone (uids : list string) (self : WebSocketManager) (uid : string) :
  uid ∈ uids →
  connections (unregister_all uids self) !! uid = None
  ∧ (is_Some (connections self !! uid) →
     user_rooms (unregister_all uids self) !! uid = None).
Proof.
  revert self. induction uids as [|v uids IH]; intros self Hin.
  { by apply elem_of_nil in Hin. }
  change (unregister_all (v :: uids) self)
    with (unregister_all uids (unregister_connection v self)).
  destruct (decide (uid = v)) as [->|Hne].
  - split.
    + apply unregister_all_connections_None.
      rewrite unregister_connections. apply lookup_delete_eq.
    + intros [websocket Hc]. apply unregister_all_user_rooms_None.
      rewrite unregister_user_rooms, Hc. apply lookup_delete_eq.
  - apply elem_of_cons in Hin as [?|Hin]; [done |].
    destruct (IH (unregister_connection v self) Hin) as [IH1 IH2].
    split; [done |]. intros Hc. apply IH2.
    rewrite unregister_connections. by rewrite lookup_delete_ne.
Qed.

(** ** The two registry mutations, field by field *)

Ltac unfold_setters :=
  unfold set_metrics, set_active_rooms, set_room_users, set_user_rooms,
    set_connections, set_redis_manager; cbn.

Lemma alter_present {A} (f : A → A) (k : string) (x : A) (m : gmap string A) :
  m !! k = Some x → alter f k m = <[k := f x]> m.
Proof.
  intros Hk. apply map_eq. intros j. rewrite lookup_alter. case_decide as Hj.
  - subst j. by rewrite Hk, lookup_insert_eq.
  - by rewrite lookup_insert_ne.
Qed.

Lemma register_prefix_covered websocket user room self :
  directory_covers self →
  register_prefix websocket user room self = (Ok tt, registered websocket user room self).
Proof.
  intros Hdir. unfold register_prefix, registered.
  repeat (rewrite bind_run; cbn [modify gets]).
  cbn [room_users set_user_rooms set_connections].
  destruct (room_users self !! room) as [members|] eqn:Hroom.
  - destruct (Hdir room) as [r Hr]; [by rewrite Hroom |].
    cbn [ret]. repeat (rewrite bind_run; cbn [modify gets]).
    cbn. rewrite Hr. cbn. unfold modify. unfold_setters.
    by rewrite (alter_present _ _ members).
  - repeat (rewrite bind_run; cbn [modify gets]).
    cbn. rewrite lookup_insert_eq. cbn. unfold modify. unfold_setters.
    rewrite (alter_present _ _ ∅) by apply lookup_insert_eq.
    by rewrite !insert_insert_eq.
Qed.

Lemma unregister_room_users uid self :
  room_users (unregister_connection uid self) =
  match connections self !! uid, user_rooms self !! uid with
  | Some _, Some room =>
      if decide (room ≠ "") then
        match room_users self !! room with
        | Some members => <[room := members ∖ {[uid]}]> (room_users self)
        | None => room_users self
        end
      else room_users self
  | _, _ => room_users self
  end.
Proof.
  unfold unregister_connection.
  destruct (connections self !! uid); [|done].
  destruct (user_rooms self !! uid) as [room|]; [|done].
  destruct (decide (room ≠ "")); [|done].
  destruct (room_users self !! room); [|done].
  cbn. by destruct (active_rooms self !! room).
Qed.

Lemma unregister_active_rooms uid self :
  active_rooms (unregister_connection uid self) =
  match connections self !! uid, user_rooms self !! uid with
  | Some _, Some room =>
      if decide (room ≠ "") then
        match room_users self !! room, active_rooms self !! room with
        | Some _, Some r =>
            <[room := set_active_users (Z.max 0 (active_users r - 1)) r]> (active_rooms self)
        | _, _ => active_rooms self
        end
      else active_rooms self
  | _, _ => active_rooms self
  end.
Proof.
  unfold unregister_connection.
  destruct (connections self !! uid); [|done].
  destruct (user_rooms self !! uid) as [room|]; [|done].
  destruct (decide (room ≠ "")); [|done].
  destruct (room_users self !! room); [|done].
  cbn. by destruct (active_rooms self !! room).
Qed.

(** ** [register_prefix] on any registry *)

Lemma register_prefix_cases websocket user room self :
  register_prefix websocket user room self = (Ok tt, registered websocket user room self)
  ∨ ∃ self',
      register_prefix websocket user room self = (Raise KeyError, self')
      ∧ is_Some (room_users self !! room)
      ∧ active_rooms self !! room = None
      ∧ metrics self' = metrics self
      ∧ active_rooms self' = active_rooms self
      ∧ redis_manager self' = redis_manager self
      ∧ connections self' = <[user_id user := websocket]> (connections self)
      ∧ dom (room_users self') = dom (room_users self).
Proof.
  destruct (room_users self !! room) as [members|] eqn:Hroom.
  - destruct (active_rooms self !! room) as [r|] eqn:Hr.
    + left. unfold register_prefix, registered.
      repeat (rewrite bind_run; cbn [modify gets]).
      cbn [room_users set_user_rooms set_connections]. rewrite Hroom.
      cbn [ret]. repeat (rewrite bind_run; cbn [modify gets]).
      cbn. rewrite Hr. cbn. unfold modify. unfold_setters.
      by rewrite (alter_present _ _ members).
    + right. eexists. split.
      * unfold register_prefix.
        repeat (rewrite bind_run; cbn [modify gets]).
        cbn [room_users set_user_rooms set_connections]. rewrite Hroom.
        cbn [ret]. repeat (rewrite bind_run; cbn [modify gets]).
        cbn. rewrite Hr. reflexivity.
      * cbn. do 6 (split; [by eauto |]).
        rewrite (alter_present _ _ members) by done.
        rewrite dom_insert_L. apply elem_of_dom_2 in Hroom. set_solver.
  - left. unfold register_prefix, registered.
    repeat (rewrite bind_run; cbn [modify gets]).
    cbn [room_users set_user_rooms set_connections]. rewrite Hroom.
    repeat (rewrite bind_run; cbn [modify gets]).
    cbn. rewrite lookup_insert_eq. cbn. unfold modify. unfold_setters.
    rewrite (alter_present _ _ ∅) by apply lookup_insert_eq.
    by rewrite !insert_insert_eq.
Qed.

Lemma unregister_keeps_member (v uid room : string) (members : gset string)
    (self : WebSocketManager) :
  v ≠ uid →
  room_users self !! room = Some members → uid ∈ members →
  ∃ members', room_users (unregister_connection v self) !! room = Some members'
              ∧ uid ∈ members'.
Proof.
  intros Hne Hroom Hin. unfold unregister_connection.
  destruct (connections self !! v); [|eauto].
  destruct (user_rooms self !! v) as [room'|]; [|eauto].
  destruct (decide (room' ≠ "")); [|eauto].
  destruct (room_users self !! room') as [members0|] eqn:Hroom'; [|eauto].
  assert (∃ members',
            <[room' := members0 ∖ {[v]}]> (room_users self) !! room = Some members'
            ∧ uid ∈ members') as Hgoal.
  { destruct (decide (room' = room)) as [->|Hr].
    - rewrite lookup_insert_eq. eexists; split; [done |].
      rewrite Hroom in Hroom'. set_solver.
    - rewrite lookup_insert_ne by done. eauto. }
  cbn. by destruct (active_rooms self !! room').
Qed.

Lemma unregister_all_keeps_member (uids : list string) (uid room : string)
    (members : gset string) (self : WebSocketManager) :
  uid ∉ uids →
  room_users self !! room = Some members → uid ∈ members →
  ∃ members', room_users (unregister_all uids self) !! room = Some members'
              ∧ uid ∈ members'.
Proof.
  revert self members. induction uids as [|v uids IH]; intros self members Hnot Hroom Hin.
  { eauto. }
  apply not_elem_of_cons in Hnot as [Hne Hnot].
  destruct (unregister_keeps_member v uid room members self) as (members1 & H1 & H2);
    [done..|].
  by apply (IH (unregister_connection v self) members1).
Qed.


Lemma unregister_all_connections_other uids self uid :
  uid ∉ uids →
  connections (unregister_all uids self) !! uid = connections self !! uid.
Proof.
  revert self. induction uids as [|v uids IH]; intros self Hnot; [done |].
  apply not_elem_of_cons in Hnot as [Hne Hnot].
  change (unregister_all (v :: uids) self)
    with (unregister_all uids (unregister_connection v self)).
  rewrite IH by done. rewrite unregister_connections. by rewrite lookup_delete_ne.
Qed.

Lemma unregister_all_user_rooms_other uids self uid :
  uid ∉ uids →
  user_rooms (unregister_all uids self) !! uid = user_rooms self !! uid.
Proof.
  revert self. induction uids as [|v uids IH]; intros self Hnot; [done |].
  apply not_elem_of_cons in Hnot as [Hne Hnot].
  change (unregister_all (v :: uids) self)
    with (unregister_all uids (unregister_connection v self)).
  rewrite IH by done. rewrite unregister_user_rooms.
  destruct (connections self !! v); [|done]. by rewrite lookup_delete_ne.
Qed.

Lemma registered_entry_count websocket user room self :
  ∃ r, active_rooms (registered websocket user room self) !! room = Some r
       ∧ active_users r =
         (if room_users self !! room is Some _
          then from_option active_users 0 (active_rooms self !! room)
          else 0) + 1.
Proof.
  unfold registered; cbn. eexists. split; [apply lookup_insert_eq |]. cbn.
  destruct (room_users self !! room); [|done].
  by destruct (active_rooms self !! room).
Qed.

Lemma unregister_keeps_empty_room v self :
  room_users (unregister_connection v self) !! "" = room_users self !! ""
  ∧ active_rooms (unregister_connection v self) !! "" = active_rooms self !! "".
Proof.
  rewrite unregister_room_users, unregister_active_rooms.
  destruct (connections self !! v); [|done].
  destruct (user_rooms self !! v) as [room|]; [|done].
  destruct (decide (room ≠ "")) as [Hne|]; [|done].
  destruct (room_users self !! room); [|done].
  rewrite lookup_insert_ne by done.
  destruct (active_rooms self !! room); [|done].
  by rewrite lookup_insert_ne.
Qed.

Lemma unregister_all_keeps_empty_room uids self :
  room_users (unregister_all uids self) !! "" = room_users self !! ""
  ∧ active_rooms (unregister_all uids self) !! "" = active_rooms self !! "".
Proof.
  revert self. induction uids as [|v uids IH]; intros self; [done |].
  change (unregister_all (v :: uids) self)
    with (unregister_all uids (unregister_connection v self)).
  destruct (IH (unregister_connection v self)) as [-> ->].
  apply unregister_keeps_empty_room.
Qed.

(** ** A whole registration *)

Lemma registered_room_users websocket user room self :
  room_users (registered websocket user room self) !! room
  = Some (default ∅ (room_users self !! room) ∪ {[user_id user]}).
Proof. apply lookup_insert_eq. Qed.

(** On a registry whose rooms all have a directory entry, a join registers
    the user and deregisters every other member of the room that has a
    connection. *)
Lemma join_covered websocket user room self :
  directory_covers self →
  join websocket user room self =
  unregister_all
    (deliverable (registered websocket user room self) (Some (user_id user))
       (elements (default ∅ (room_users self !! room) ∪ {[user_id user]})))
    (registered websocket user room self).
Proof.
  intros Hdir. unfold join. rewrite register_prefix_covered by done.
  destruct (registered_entry_count websocket user room self) as (r & -> & _).
  by rewrite registered_room_users.
Qed.

(** [register_connection] is not suspended and hands nothing to the
    transport: it is the function [join] of the manager. *)
Lemma register_connection_join websocket user room w :
  register_connection websocket user room w =
  (Ok tt, mkWorld (join websocket user room (manager w)) (trace w) (oracle w)).
Proof.
  unfold register_connection, try_except, join.
  rewrite bind_run. unfold on_manager at 1.
  destruct (register_prefix websocket user room (manager w)) as [[[]|e] self1];
    [|by rewrite on_manager_modify].
  rewrite bind_run. cbn [gets manager].
  destruct (active_rooms self1 !! room) as [r|]; [|cbn [raise]; by rewrite on_manager_modify].
  rewrite bind_run.
  destruct (room_users self1 !! room) as [members|] eqn:Hroom.
  - rewrite (broadcast_to_room_unserialisable (user_joined user (active_users r))
               (Some (user_id user)) eq_refl room members) by done.
    reflexivity.
  - unfold broadcast_to_room. rewrite bind_run. cbn [gets manager]. by rewrite Hroom.
Qed.

Lemma register_connection_returns websocket user room w :
  fst (register_connection websocket user room w) = Ok tt.
Proof. by rewrite register_connection_join. Qed.

Lemma register_connection_covered websocket user room w :
  directory_covers (manager w) →
  register_connection websocket user room w =
  (Ok tt,
   mkWorld
     (unregister_all
        (deliverable (registered websocket user room (manager w)) (Some (user_id user))
           (elements (default ∅ (room_users (manager w) !! room) ∪ {[user_id user]})))
        (registered websocket user room (manager w)))
     (trace w) (oracle w)).
Proof. intros Hdir. by rewrite register_connection_join, join_covered. Qed.

(** ** Broadcast without interference *)


Lemma broadcast_to_room_quiet room message exclude_user members w :
  serialisable message = true →
  quiet (oracle w) →
  room_users (manager w) !! room = Some members →
  ∃ new,
    broadcast_to_room room message exclude_user w =
    (Ok (Some (successes new, failures new)),
     mkWorld (unregister_all (failures new) (manager w)) (trace w ++ new)
       (drop (length new) (oracle w)))
    ∧ Forall2 (delivery_of (manager w) message)
        (deliverable (manager w) exclude_user (elements members)) new.
Proof.
  intros Hser Hq Hroom. unfold broadcast_to_room. rewrite bind_run. cbn [gets].
  rewrite Hroom, bind_run.
  rewrite (deliver_loop_quiet message exclude_user Hser _ room members) by done.
  rewrite Nat.sub_diag, drop_0.
  destruct (deliver_snapshot_quiet message exclude_user Hser (elements members) [] 0 w Hq)
    as (new & -> & Hall).
  exists new. split; [|done].
  rewrite bind_run, for_each_unregister. cbn.
  by rewrite Z.add_0_l.
Qed.

(** Undisturbed, the broadcast of the code is the broadcast of the spec. *)
Lemma broadcast_snapshot_agrees room message exclude_user w :
  serialisable message = true →
  quiet (oracle w) →
  broadcast_to_room room message exclude_user w =
  broadcast_snapshot room message exclude_user w.
Proof.
  intros Hser Hq. unfold broadcast_to_room, broadcast_snapshot.
  rewrite !bind_run. cbn [gets].
  destruct (room_users (manager w) !! room) as [members|] eqn:Hroom; [|done].
  rewrite !bind_run.
  rewrite (deliver_loop_quiet message exclude_user Hser _ room members) by done.
  by rewrite Nat.sub_diag, drop_0.
Qed.

Lemma run_op_returns op w : fst (run_op op w) = Ok tt.
Proof.
  destruct op; [apply register_connection_returns | done].
Qed.

Lemma run_ops_cons op ops w :
  run_ops (op :: ops) w = run_ops ops (snd (run_op op w)).
Proof.
  unfold run_ops. cbn [for_each]. rewrite bind_run.
  pose proof (run_op_returns op w) as Hret.
  destruct (run_op op w) as [res w']. cbn in Hret. by subst res.
Qed.

Lemma run_ops_returns ops w : fst (run_ops ops w) = Ok tt.
Proof.
  revert w. induction ops as [|op ops IH]; intros w; [done |].
  by rewrite run_ops_cons.
Qed.

(** ** Calls that never raise *)

Lemma handle_chat_message_returns user text fresh_id now w :
  ∃ sent, fst (handle_chat_message user text fresh_id now w) = Ok sent.
Proof.
  unfold handle_chat_message, try_except.
  destruct (bind _ _ w) as [[sent|e] w']; [by exists sent |].
  rewrite bind_run, on_manager_modify. by exists false.
Qed.

Lemma client_frame_returns websocket user frame fresh_id now w :
  fst (client_frame websocket user frame fresh_id now w) = Ok tt.
Proof.
  unfold client_frame. destruct frame as [|type_tag text]; [done |].
  destruct (decide (type_tag = Some "chat_message")) as [Hchat|Hchat].
  - rewrite bind_run.
    destruct (handle_chat_message_returns user (default "" text) fresh_id now w)
      as [sent Hsent].
    destruct (handle_chat_message _ _ _ _ w) as [res w1]. cbn in Hsent. by subst res.
  - destruct (decide (type_tag = Some "system_status")) as [Hstatus|Hstatus]; [|done].
    rewrite bind_run. cbn [gets]. rewrite bind_run. unfold attempt.
    by destruct (send _ _ _ w) as [res w1].
Qed.

Lemma client_connect_returns websocket auth fresh_id w :
  ∃ entered, fst (client_connect websocket auth fresh_id w) = Ok entered.
Proof.
  unfold client_connect. destruct auth as [auth_data|]; [|by exists None].
  destruct (UserRole_of_value _) as [r|]; [|by exists None].
  rewrite bind_run.
  pose proof (register_connection_returns websocket
                (mkUser fresh_id (default "Anonymous" (auth_username auth_data)) r true)
                (default "general" (auth_room_id auth_data)) w) as Hret.
  destruct (register_connection _ _ _ w) as [res w1]. cbn [fst] in Hret. subst res.
  rewrite bind_run. unfold attempt. cbn [user_id].
  destruct (send _ _ _ w1) as [[[]|e] w2]; [by eexists |].
  rewrite bind_run, on_manager_modify. by eexists.
Qed.

Lemma for_each_frames_cons websocket user item inbox w :
  for_each (item :: inbox)
    (λ item, client_frame websocket user (fst (fst item)) (snd (fst item)) (snd item)) w =
  for_each inbox
    (λ item, client_frame websocket user (fst (fst item)) (snd (fst item)) (snd item))
    (snd (client_frame websocket user (fst (fst item)) (snd (fst item)) (snd item) w)).
Proof.
  cbn [for_each]. rewrite bind_run.
  pose proof (client_frame_returns websocket user (fst (fst item)) (snd (fst item))
                (snd item) w) as Hret.
  destruct (client_frame _ _ _ _ _ w) as [res w1]. cbn [fst] in Hret. by subst res.
Qed.

Lemma for_each_frames_returns websocket user inbox w :
  fst (for_each inbox
         (λ item, client_frame websocket user (fst (fst item)) (snd (fst item)) (snd item))
         w) = Ok tt.
Proof.
  revert w. induction inbox as [|item inbox IH]; intros w; [done |].
  by rewrite for_each_frames_cons.
Qed.

Lemma handle_client_run websocket auth fresh_id inbox w :
  handle_client websocket auth fresh_id inbox w =
  match client_connect websocket auth fresh_id w with
  | (Ok (Some user), w1) =>
      (Ok tt,
       mkWorld
         (unregister_connection (user_id user)
            (manager (snd (for_each inbox
                             (λ item, client_frame websocket user (fst (fst item))
                                        (snd (fst item)) (snd item)) w1))))
         (trace (snd (for_each inbox
                        (λ item, client_frame websocket user (fst (fst item))
                                   (snd (fst item)) (snd item)) w1)))
         (oracle (snd (for_each inbox
                         (λ item, client_frame websocket user (fst (fst item))
                                    (snd (fst item)) (snd item)) w1))))
  | (_, w1) => (Ok tt, w1)
  end.
Proof.
  unfold handle_client. rewrite bind_run.
  destruct (client_connect_returns websocket auth fresh_id w) as [entered Hent].
  destruct (client_connect websocket auth fresh_id w) as [res w1].
  cbn [fst] in Hent. subst res. destruct entered as [user|]; [|done].
  rewrite bind_run.
  pose proof (for_each_frames_returns websocket user inbox w1) as Hret.
  destruct (for_each inbox _ w1) as [res w2]. cbn [fst] in Hret. subst res.
  unfold client_close. by rewrite on_manager_modify.
Qed.

(** ** Properties of the manager kept by every step *)

Section join_invariant.
Variable P : WebSocketManager → Prop.

Hypothesis P_unregister : ∀ self uid, P self → P (unregister_connection uid self).
Hypothesis P_disconnection : ∀ self,
  P self → P (set_metrics incr_disconnection_count self).

Lemma unregister_all_keeps uids self : P self → P (unregister_all uids self).
Proof.
  revert self. induction uids as [|uid uids IH]; intros self HP; [done |].
  unfold unregister_all in *. cbn [foldl]. by apply IH, P_unregister.
Qed.

Lemma join_keeps websocket user room self :
  P (snd (register_prefix websocket user room self)) →
  P (join websocket user room self).
Proof.
  unfold join.
  destruct (register_prefix websocket user room self) as [[[]|e] self1]; cbn [snd];
    intros HP; [|by apply P_disconnection].
  destruct (active_rooms self1 !! room); [|by apply P_disconnection].
  destruct (room_users self1 !! room); [|done].
  by apply unregister_all_keeps.
Qed.
End join_invariant.

Lemma no_other_chat_next o : no_other_chat o → Forall registry_action (next_actions o).
Proof.
  unfold no_other_chat. destruct o as [|[outcome others] rest]; [by constructor |].
  by intros [? _]%Forall_cons.
Qed.

Lemma no_other_chat_tail o : no_other_chat o → no_other_chat (tail o).
Proof. unfold no_other_chat. destruct o; [done |]. by intros [_ ?]%Forall_cons. Qed.

Section manager_invariant.
Variable P : WebSocketManager → Prop.

Hypothesis P_prefix : ∀ self websocket user room,
  P self → P (snd (register_prefix websocket user room self)).
Hypothesis P_unregister : ∀ self uid, P self → P (unregister_connection uid self).
Hypothesis P_disconnection : ∀ self,
  P self → P (set_metrics incr_disconnection_count self).

Lemma register_connection_keeps websocket user room w :
  P (manager w) → P (manager (snd (register_connection websocket user room w))).
Proof.
  intros HP. rewrite register_connection_join. cbn [snd manager].
  by apply join_keeps, P_prefix.
Qed.

Lemma run_ops_keeps ops w :
  P (manager w) → P (manager (snd (run_ops ops w))).
Proof.
  revert w. induction ops as [|op ops IH]; intros w HP; [done |].
  rewrite run_ops_cons. apply IH. destruct op as [websocket user room|uid].
  - by apply register_connection_keeps.
  - by apply P_unregister.
Qed.

(** While the other handlers only join and leave. *)
Lemma registry_actions_keep others self :
  Forall registry_action others → P self → P (foldl env_step self others).
Proof.
  revert self. induction others as [|a others IH]; intros self Hreg HP; [done |].
  apply Forall_cons in Hreg as [Ha Hreg]. cbn [foldl]. apply IH; [done |].
  destruct a as [websocket user room|uid| | |]; try done; cbn [env_step].
  - by apply join_keeps, P_prefix.
  - by apply P_unregister.
Qed.

Lemma broadcast_keeps_registry room message exclude_user w :
  no_other_chat (oracle w) → P (manager w) →
  P (manager (snd (broadcast_to_room room message exclude_user w))).
Proof.
  intros Hno HP.
  apply (broadcast_to_room_invariant
           (λ w', no_other_chat (oracle w') ∧ P (manager w')) message exclude_user);
    [| |done].
  - intros w0 uid ws _ [Hno0 HP0].
    destruct (serialisable message) eqn:Hser.
    + rewrite send_serialisable by done. cbn [snd oracle manager].
      split; [by apply no_other_chat_tail |].
      by apply registry_actions_keep; [apply no_other_chat_next |].
    + by rewrite send_unserialisable.
  - intros w0 uid [Hno0 HP0]. split; [done |]. by apply P_unregister.
Qed.

(** Whatever the other handlers do. *)
Hypothesis P_store : ∀ self r, P self → P (set_redis_manager r self).
Hypothesis P_message : ∀ self, P self → P (set_metrics incr_message_count self).
Hypothesis P_failed : ∀ self, P self → P (set_metrics incr_failed_messages self).

Lemma env_step_keeps self a : P self → P (env_step self a).
Proof.
  intros HP. destruct a as [websocket user room|uid|message| |]; cbn [env_step].
  - by apply join_keeps, P_prefix.
  - by apply P_unregister.
  - by apply P_store.
  - by apply P_message.
  - by apply P_failed.
Qed.

Lemma send_keeps uid websocket payload w :
  P (manager w) → P (manager (snd (send uid websocket payload w))).
Proof.
  intros HP. destruct (serialisable payload) eqn:Hser.
  - rewrite send_serialisable by done. cbn [snd manager].
    revert HP. generalize (manager w).
    induction (next_actions (oracle w)) as [|a others IH]; intros self HP; [done |].
    cbn [foldl]. by apply IH, env_step_keeps.
  - by rewrite send_unserialisable.
Qed.

Lemma broadcast_keeps room message exclude_user w :
  P (manager w) → P (manager (snd (broadcast_to_room room message exclude_user w))).
Proof.
  apply (broadcast_to_room_invariant (λ w', P (manager w')) message exclude_user).
  - intros w0 uid ws _. apply send_keeps.
  - intros w0 uid. apply P_unregister.
Qed.

Lemma handle_chat_message_keeps user text fresh_id now w :
  P (manager w) → P (manager (snd (handle_chat_message user text fresh_id now w))).
Proof.
  intros HP. unfold handle_chat_message, try_except.
  rewrite bind_run. cbn [gets]. rewrite bind_run. cbn [gets].
  destruct (negb _); [done |].
  rewrite bind_run. unfold on_manager at 1.
  destruct (store_message _ (redis_manager (manager w))) as [stored redis'].
  rewrite bind_run.
  pose proof (broadcast_keeps
                (m_room_id (new_message user text fresh_id now (user_rooms (manager w))))
                (chat_message (new_message user text fresh_id now (user_rooms (manager w))))
                None (mkWorld (set_redis_manager redis' (manager w)) (trace w) (oracle w))
                (P_store _ redis' HP)) as Hb.
  destruct (broadcast_to_room _ _ _ _) as [[res|e] w1]; cbn [snd] in Hb.
  - rewrite bind_run, on_manager_modify. by apply P_message.
  - rewrite bind_run, on_manager_modify. by apply P_failed.
Qed.

Lemma client_connect_keeps websocket auth fresh_id w :
  P (manager w) → P (manager (snd (client_connect websocket auth fresh_id w))).
Proof.
  intros HP. unfold client_connect. destruct auth as [auth_data|]; [|done].
  destruct (UserRole_of_value _) as [r|]; [|done].
  rewrite bind_run.
  pose proof (register_connection_keeps websocket
                (mkUser fresh_id (default "Anonymous" (auth_username auth_data)) r true)
                (default "general" (auth_room_id auth_data)) w HP) as Hr.
  pose proof (register_connection_returns websocket
                (mkUser fresh_id (default "Anonymous" (auth_username auth_data)) r true)
                (default "general" (auth_room_id auth_data)) w) as Hret.
  destruct (register_connection _ _ _ w) as [res w1]. cbn [fst snd] in *. subst res.
  rewrite bind_run. unfold attempt.
  pose proof (send_keeps fresh_id websocket
                (connection_confirmed fresh_id (default "general" (auth_room_id auth_data)))
                w1 Hr) as Hs.
  cbn [user_id].
  destruct (send _ _ _ w1) as [[[]|e] w2]; cbn [snd] in Hs; [done |].
  rewrite bind_run, on_manager_modify. cbn. by apply P_unregister.
Qed.

Lemma client_frame_keeps websocket user frame fresh_id now w :
  P (manager w) → P (manager (snd (client_frame websocket user frame fresh_id now w))).
Proof.
  intros HP. unfold client_frame. destruct frame as [|type_tag text]; [done |].
  destruct (decide (type_tag = Some "chat_message")) as [Hchat|Hchat].
  - rewrite bind_run.
    pose proof (handle_chat_message_keeps user (default "" text) fresh_id now w HP) as Hc.
    by destruct (handle_chat_message _ _ _ _ w) as [[b|e] w1].
  - destruct (decide (type_tag = Some "system_status")) as [Hstatus|Hstatus]; [|done].
    rewrite bind_run. cbn [gets]. rewrite bind_run. unfold attempt.
    pose proof (send_keeps (user_id user) websocket
                  (system_status_response (get_system_status (manager w))) w HP) as Hs.
    by destruct (send _ _ _ w) as [res w1].
Qed.

Lemma for_each_frames_keeps websocket user inbox w :
  P (manager w) →
  P (manager (snd (for_each inbox
                     (λ item, client_frame websocket user (fst (fst item))
                                (snd (fst item)) (snd item)) w))).
Proof.
  revert w. induction inbox as [|item inbox IH]; intros w HP; [done |].
  rewrite for_each_frames_cons. by apply IH, client_frame_keeps.
Qed.

Lemma handle_client_keeps websocket auth fresh_id inbox w :
  P (manager w) → P (manager (snd (handle_client websocket auth fresh_id inbox w))).
Proof.
  intros HP. rewrite handle_client_run.
  pose proof (client_connect_keeps websocket auth fresh_id w HP) as Hc.
  destruct (client_connect websocket auth fresh_id w) as [[[user|]|e] w1];
    cbn [snd] in *; try done.
  by apply P_unregister, for_each_frames_keeps.
Qed.
End manager_invariant.

(** ** Delivery failures in a pass that nobody disturbs *)

(** What the broadcast is written to do.  In a broadcast that no other
    handler disturbs, every member with a connection other than the
    excluded one is sent the message, in iteration order and whatever the
    outcome of the earlier sends; the users whose send failed are exactly
    those recorded; the pass returns without raising; and afterwards the
    registry is the one obtained by deregistering the recorded users, none
    of which keeps a connection handle or a room. *)
Lemma undisturbed_failures_contained room message exclude_user members w :
  serialisable message = true →
  quiet (oracle w) →
  room_users (manager w) !! room = Some members →
  ∃ new w',
    broadcast_to_room room message exclude_user w =
      (Ok (Some (successes new, failures new)), w')
    ∧ trace w' = trace w ++ new
    ∧ Forall2 (delivery_of (manager w) message)
        (deliverable (manager w) exclude_user (elements members)) new
    ∧ manager w' = unregister_all (failures new) (manager w)
    ∧ ∀ uid, uid ∈ failures new →
        connections (manager w') !! uid = None
        ∧ user_rooms (manager w') !! uid = None.
Proof.
  intros Hser Hq Hroom.
  destruct (broadcast_to_room_quiet room message exclude_user members w Hser Hq Hroom)
    as (new & Hrun & Hall).
  eexists new, _. split; [exact Hrun |]. cbn [trace manager].
  do 3 (split; [done |]). intros uid Hin.
  split; [by apply unregister_all_gone |].
  apply unregister_all_gone; [done |].
  unfold failures in Hin. apply list_elem_of_fmap in Hin as (e & -> & He).
  apply list_elem_of_filter in He as [_ He].
  apply list_elem_of_lookup_1 in He as [i Hi].
  destruct (Forall2_lookup_r _ _ _ _ _ Hall Hi) as (u & _ & <- & Hc & _).
  eauto.
Qed.

(** ** Members without a connection *)

Lemma register_prefix_registry websocket user room self :
  connections (snd (register_prefix websocket user room self))
  = <[user_id user := websocket]> (connections self)
  ∧ room_users (snd (register_prefix websocket user room self))
    = <[room := default ∅ (room_users self !! room) ∪ {[user_id user]}]> (room_users self).
Proof.
  destruct (room_users self !! room) as [members|] eqn:Hroom.
  - destruct (active_rooms self !! room) as [r|] eqn:Hr.
    + destruct (register_prefix_cases websocket user room self)
        as [->|(self' & _ & _ & Hnone & _)]; [|congruence].
      unfold registered; cbn. by rewrite Hroom.
    + unfold register_prefix.
      repeat (rewrite bind_run; cbn [modify gets]).
      cbn [room_users set_user_rooms set_connections]. rewrite Hroom.
      cbn [ret]. repeat (rewrite bind_run; cbn [modify gets]).
      cbn. rewrite Hr. cbn. by rewrite (alter_present _ _ members).
  - destruct (register_prefix_cases websocket user room self)
      as [->|(self' & _ & [? ?] & _)]; [|congruence].
    unfold registered; cbn. by rewrite Hroom.
Qed.

Lemma unconnected_member_unregister uid room v self :
  unconnected_member uid room self →
  unconnected_member uid room (unregister_connection v self).
Proof.
  intros [Hc (members & Hroom & Hin)].
  destruct (decide (v = uid)) as [->|Hne].
  { rewrite unregister_absent by done. split; eauto. }
  split.
  - rewrite unregister_connections. by rewrite lookup_delete_ne.
  - by apply (unregister_keeps_member v uid room members).
Qed.

Lemma unconnected_member_prefix uid room websocket user room' self :
  user_id user ≠ uid →
  unconnected_member uid room self →
  unconnected_member uid room (snd (register_prefix websocket user room' self)).
Proof.
  intros Hne [Hc (members & Hroom & Hin)].
  destruct (register_prefix_registry websocket user room' self) as [Hc' Hr'].
  split.
  - rewrite Hc'. by rewrite lookup_insert_ne.
  - rewrite Hr'. destruct (decide (room' = room)) as [->|Hk].
    + rewrite lookup_insert_eq, Hroom. eexists. split; [done |]. set_solver.
    + rewrite lookup_insert_ne by done. eauto.
Qed.

Lemma unconnected_member_actions uid room others self :
  uid ∉ env_ids others →
  unconnected_member uid room self →
  unconnected_member uid room (foldl env_step self others).
Proof.
  revert self. induction others as [|a others IH]; intros self Hnot Hun; [done |].
  cbn [foldl]. destruct a as [websocket user room'|v|message| |].
  - change (env_ids (env_register websocket user room' :: others))
      with (user_id user :: env_ids others) in Hnot.
    apply not_elem_of_cons in Hnot as [Hne Hnot]. apply IH; [done |].
    cbn [env_step]. apply (join_keeps (unconnected_member uid room)).
    + intros self0 v. apply unconnected_member_unregister.
    + by intros self0.
    + by apply unconnected_member_prefix.
  - apply IH; [done |]. by apply unconnected_member_unregister.
  - by apply IH.
  - by apply IH.
  - by apply IH.
Qed.

Section skipped_member.
Variable uid room : string.
Variable message : Payload.
Variable exclude_user : option string.

Lemma deliver_loop_passes_over k used failed_before failed ok w :
  unconnected_member uid room (manager w) →
  uid ∉ oracle_ids (oracle w) →
  uid ∉ failed →
  let result := deliver_loop k used room message exclude_user (failed_before ++ failed) ok w in
  ∃ new,
    trace (snd result) = trace w ++ new
    ∧ Forall (λ e, ev_user e ≠ uid) new
    ∧ unconnected_member uid room (manager (snd result))
    ∧ match fst result with
      | Ok res =>
          snd res = ok + successes new
          ∧ ∃ failed', fst res = failed_before ++ failed'
                       ∧ (uid ∉ failed')
                       ∧ (serialisable message = true → failed' = failed ++ failures new)
      | Raise e => e = RuntimeError
      end.
Proof.
  cbv zeta. revert failed ok w.
  induction k as [|k IH]; intros failed ok w Hun Hids Hnot.
  - cbn [deliver_loop]. rewrite bind_run. cbn [gets].
    destruct (decide _).
    + exists []. cbn. by rewrite app_nil_r.
    + exists []. cbn. rewrite app_nil_r, Z.add_0_r. split_and!; try done.
      exists failed. by rewrite app_nil_r.
  - cbn [deliver_loop]. rewrite bind_run. cbn [gets].
    destruct (decide _).
    { exists []. cbn. by rewrite app_nil_r. }
    destruct (elements _ !! _) as [v|].
    2:{ exists []. cbn. rewrite app_nil_r, Z.add_0_r. split_and!; try done.
        exists failed. by rewrite app_nil_r. }
    destruct (decide (exclude_user = Some v)) as [|Hex]; [by apply IH |].
    rewrite bind_run. cbn [gets].
    destruct (connections (manager w) !! v) as [websocket|] eqn:Hconn; [|by apply IH].
    assert (v ≠ uid) as Hv by (intros ->; destruct Hun as [Hc _]; congruence).
    rewrite bind_run. unfold attempt.
    destruct (serialisable message) eqn:Hser.
    + rewrite send_serialisable by done.
      set (e := mkEvent v websocket message (next_outcome (oracle w))).
      set (w1 := mkWorld (foldl env_step (manager w) (next_actions (oracle w)))
                   (trace w ++ [e]) (tail (oracle w))).
      rewrite oracle_ids_next in Hids. apply not_elem_of_app in Hids as [Hids1 Hids2].
      assert (unconnected_member uid room (manager w1)) as Hun1
        by by apply unconnected_member_actions.
      destruct (next_outcome (oracle w)) eqn:Hout; cbn [outcome_result].
      * destruct (IH failed (ok + 1) w1 Hun1 Hids2 Hnot) as (new & Ht & Hall & Hun' & Hres).
        exists (e :: new). rewrite Ht. cbn [trace w1]. rewrite <- app_assoc.
        split; [done |]. split; [by constructor |]. split; [done |].
        destruct (fst (deliver_loop _ _ _ _ _ _ _ w1)) as [[failed1 ok1]|err]; [|done].
        cbn [fst snd] in *. destruct Hres as (Hok & failed' & Hf & Hnot' & Hall').
        unfold successes, failures in *. rewrite !filter_cons.
        rewrite decide_True by (by subst e).
        rewrite decide_False by (subst e; cbn; naive_solver).
        cbn [length]. split; [lia |]. by exists failed'.
      * rewrite <- app_assoc.
        destruct (IH (failed ++ [v]) ok w1 Hun1 Hids2) as (new & Ht & Hall & Hun' & Hres);
          [set_solver |].
        exists (e :: new). rewrite Ht. cbn [trace w1]. rewrite <- app_assoc.
        split; [done |]. split; [by constructor |]. split; [done |].
        destruct (fst (deliver_loop _ _ _ _ _ _ _ w1)) as [[failed1 ok1]|err]; [|done].
        cbn [fst snd] in *. destruct Hres as (Hok & failed' & Hf & Hnot' & Hall').
        unfold successes, failures in *. rewrite !filter_cons.
        rewrite decide_False by (by subst e).
        rewrite decide_True by (by subst e).
        split; [done |]. exists failed'. split_and!; try done.
        intros _. rewrite Hall' by done. cbn. by rewrite <- app_assoc.
      * rewrite <- app_assoc.
        destruct (IH (failed ++ [v]) ok w1 Hun1 Hids2) as (new & Ht & Hall & Hun' & Hres);
          [set_solver |].
        exists (e :: new). rewrite Ht. cbn [trace w1]. rewrite <- app_assoc.
        split; [done |]. split; [by constructor |]. split; [done |].
        destruct (fst (deliver_loop _ _ _ _ _ _ _ w1)) as [[failed1 ok1]|err]; [|done].
        cbn [fst snd] in *. destruct Hres as (Hok & failed' & Hf & Hnot' & Hall').
        unfold successes, failures in *. rewrite !filter_cons.
        rewrite decide_False by (by subst e).
        rewrite decide_True by (by subst e).
        split; [done |]. exists failed'. split_and!; try done.
        intros _. rewrite Hall' by done. cbn. by rewrite <- app_assoc.
    + rewrite send_unserialisable by done. rewrite <- app_assoc.
      destruct (IH (failed ++ [v]) ok w Hun Hids) as (new & Ht & Hall & Hun' & Hres);
        [set_solver |].
      exists new. do 3 (split; [done |]).
      destruct (fst (deliver_loop _ _ _ _ _ _ _ w)) as [[failed1 ok1]|err]; [|done].
      cbn [fst snd] in *. destruct Hres as (Hok & failed' & Hf & Hnot' & Hall').
      split; [done |]. exists failed'. by split_and!.
Qed.
End skipped_member.

(** C9.  In every broadcast, a user who is in the room's member set but has
    no entry in [connections] is passed over, whatever the outcome of the
    sends and whatever the other handlers do meanwhile (none of them
    registers this user id again, each id being a fresh [uuid4]): no frame
    is handed to the transport for it; when the pass completes it is not in
    the list of failed users that the cleanup deregisters, and the number
    reported as successful counts delivered frames only, none of which is
    for it (with a payload that [json.dumps] accepts the failed users are
    exactly those of the frames not delivered); and it still is in the
    room's member set, without a connection, afterwards.  The only error a
    broadcast can raise is the [RuntimeError] of the set iterator. *)
Theorem broadcast_skips_unconnected room message exclude_user members uid w :
  room_users (manager w) !! room = Some members →
  uid ∈ members →
  connections (manager w) !! uid = None →
  uid ∉ oracle_ids (oracle w) →
  let result := broadcast_to_room room message exclude_user w in
  ∃ new,
    trace (snd result) = trace w ++ new
    ∧ Forall (λ e, ev_user e ≠ uid) new
    ∧ connections (manager (snd result)) !! uid = None
    ∧ (∃ members', room_users (manager (snd result)) !! room = Some members'
                   ∧ uid ∈ members')
    ∧ match fst result with
      | Ok (Some (ok, failed)) =>
          ok = successes new
          ∧ (uid ∉ failed)
          ∧ (serialisable message = true → failed = failures new)
      | Ok None => False
      | Raise e => e = RuntimeError
      end.
Proof.
  intros Hroom Hin Hconn Hids. cbv zeta.
  assert (unconnected_member uid room (manager w)) as Hun by (split; eauto).
  unfold broadcast_to_room. rewrite bind_run. cbn [gets]. rewrite Hroom, bind_run.
  destruct (deliver_loop_passes_over uid room message exclude_user
              (size members) (size members) [] [] 0 w Hun Hids)
    as (new & Ht & Hall & Hun' & Hres); [set_solver |].
  cbn [app] in *.
  destruct (deliver_loop _ _ _ _ _ _ _ w) as [[[failed ok]|e] w1]; cbn [fst snd] in *.
  - destruct Hres as (Hok & failed' & Hf & Hnot & Hser). cbn [app] in Hf. subst failed'.
    rewrite bind_run, for_each_unregister. cbn.
    exists new. split; [done |]. split; [done |].
    assert (unconnected_member uid room (unregister_all failed (manager w1))) as [Hc Hm].
    { apply (unregister_all_keeps (unconnected_member uid room)); [|done].
      intros self0 v. apply unconnected_member_unregister. }
    do 2 (split; [done |]). split; [lia |]. split; [done |].
    intros Hs. by rewrite Hser.
  - exists new. destruct Hun' as [Hc Hm]. by split_and!.
Qed.

(** ** Rejected messages *)

(** C8.  When moderation rejects the message built for a send,
    [handle_chat_message] returns [False] and the world is the one it
    started from: nothing was sent (no broadcast and no reply to the
    sender), nothing was stored, and the registry and every counter are
    untouched. *)
Theorem rejected_message_dropped user text fresh_id now w :
  moderate_message (moderation_service (manager w))
    (new_message user text fresh_id now (user_rooms (manager w))) user = false →
  handle_chat_message user text fresh_id now w = (Ok false, w).
Proof.
  intros Hrej. unfold handle_chat_message, try_except.
  rewrite bind_run. cbn [gets]. rewrite bind_run. cbn [gets].
  by rewrite Hrej.
Qed.

(** ** The confirmation and the join notices *)

Lemma send_trace uid websocket payload w :
  serialisable payload = true →
  ∃ outcome,
    fst (send uid websocket payload w) = outcome_result outcome
    ∧ trace (snd (send uid websocket payload w)) =
      trace w ++ [mkEvent uid websocket payload outcome].
Proof.
  intros Hser. rewrite send_serialisable by done. by eexists.
Qed.

(** C3.  For a first frame that is accepted, the one frame the handler
    hands to the transport up to its receive loop is the confirmation, on
    the new connection.  The [user_joined] notices of the registration are
    never handed to the transport ([json.dumps] raises on their payload
    and the broadcast records each as a failed delivery), so none is
    delivered to another member before the confirmation, nor after it.
    The handler goes on with the user exactly when the confirmation went
    through. *)
Theorem confirmation_precedes_join_notices websocket auth_data fresh_id r w :
  UserRole_of_value (default "viewer" (auth_role auth_data)) = Some r →
  let user := mkUser fresh_id (default "Anonymous" (auth_username auth_data)) r true in
  let room := default "general" (auth_room_id auth_data) in
  let result := client_connect websocket (Some auth_data) fresh_id w in
  let sent := drop (length (trace w)) (trace (snd result)) in
  ∃ outcome,
    trace (snd result) = trace w ++ sent
    ∧ sent = [mkEvent fresh_id websocket (connection_confirmed fresh_id room) outcome]
    ∧ confirmation_first fresh_id sent
    ∧ (∀ e other n, e ∈ sent → ev_payload e ≠ user_joined other n)
    ∧ fst result = Ok (if decide (outcome = Delivered) then Some user else None).
Proof.
  intros Hrole user room. cbv zeta. unfold client_connect. rewrite Hrole.
  fold user. fold room. rewrite bind_run, register_connection_join.
  subst user; cbn [user_id].
  set (user := mkUser fresh_id _ r true).
  set (w1 := mkWorld _ (trace w) (oracle w)).
  rewrite bind_run. unfold attempt.
  destruct (send_trace fresh_id websocket (connection_confirmed fresh_id room) w1 eq_refl)
    as (outcome & Hres & Hs).
  destruct (send fresh_id websocket (connection_confirmed fresh_id room) w1)
    as [sent w2]. cbn [fst snd] in *.
  set (e := mkEvent fresh_id websocket (connection_confirmed fresh_id room) outcome) in *.
  assert (confirmation_first fresh_id [e]) as Hfirst.
  { intros i j e1 e2 room0 other n _ _ H2 Hp2 _.
    apply list_lookup_singleton_Some in H2 as [_ <-]. done. }
  assert (∀ e0 other n, e0 ∈ [e] → ev_payload e0 ≠ user_joined other n) as Hnone.
  { intros e0 other n ->%list_elem_of_singleton. done. }
  exists outcome.
  destruct outcome; cbn in Hres; subst sent;
    [|rewrite bind_run, on_manager_modify..]; cbn [fst snd ret bind trace];
    rewrite Hs; cbn [trace w1]; rewrite drop_app_length; by split_and!.
Qed.

(** ** Counts never go below zero *)

Lemma registered_sound websocket user room self :
  sound self → sound (registered websocket user room self).
Proof.
  intros [Hdir Hnn]. split.
  - intros k. unfold registered; cbn.
    destruct (decide (k = room)) as [->|Hk].
    + rewrite !lookup_insert_eq. eauto.
    + rewrite !lookup_insert_ne by done. apply Hdir.
  - intros k r. unfold registered; cbn.
    destruct (decide (k = room)) as [->|Hk].
    + rewrite lookup_insert_eq. intros [= <-]. cbn.
      destruct (room_users self !! room); [|cbn; lia].
      destruct (active_rooms self !! room) as [r0|] eqn:Hr0; cbn; [|lia].
      specialize (Hnn room r0 Hr0). lia.
    + rewrite lookup_insert_ne by done. apply Hnn.
Qed.

Lemma unregister_sound uid self :
  sound self → sound (unregister_connection uid self).
Proof.
  intros [Hdir Hnn]. split.
  - intros k. rewrite unregister_room_users, unregister_active_rooms.
    destruct (connections self !! uid); [|apply Hdir].
    destruct (user_rooms self !! uid) as [room|]; [|apply Hdir].
    destruct (decide (room ≠ "")); [|apply Hdir].
    destruct (room_users self !! room) as [members|] eqn:Hroom; [|apply Hdir].
    destruct (Hdir room) as [r Hr]; [by rewrite Hroom |]. rewrite Hr.
    destruct (decide (k = room)) as [->|Hk].
    + rewrite !lookup_insert_eq. eauto.
    + rewrite !lookup_insert_ne by done. apply Hdir.
  - intros k r0. rewrite unregister_active_rooms.
    destruct (connections self !! uid); [|apply Hnn].
    destruct (user_rooms self !! uid) as [room|]; [|apply Hnn].
    destruct (decide (room ≠ "")); [|apply Hnn].
    destruct (room_users self !! room) as [members|]; [|apply Hnn].
    destruct (active_rooms self !! room) as [r|]; [|apply Hnn].
    destruct (decide (k = room)) as [->|Hk].
    + rewrite lookup_insert_eq. intros [= <-]. cbn. lia.
    + rewrite lookup_insert_ne by done. apply Hnn.
Qed.

Lemma prefix_sound websocket user room self :
  sound self → sound (snd (register_prefix websocket user room self)).
Proof.
  intros Hs. rewrite register_prefix_covered by apply Hs. by apply registered_sound.
Qed.

Lemma join_sound websocket user room self :
  sound self → sound (join websocket user room self).
Proof.
  intros Hs. apply (join_keeps sound).
  - intros self0 uid. apply unregister_sound.
  - by intros self0.
  - by apply prefix_sound.
Qed.

Lemma run_ops_sound ops w :
  sound (manager w) → sound (manager (snd (run_ops ops w))).
Proof.
  apply (run_ops_keeps sound).
  - intros self websocket user room. apply prefix_sound.
  - intros self uid. apply unregister_sound.
  - by intros self.
Qed.

Lemma initial_sound redis now : sound (WebSocketManager_init redis now).
Proof. split; [intros room [? ?] | intros room r ?]; by simplify_map_eq. Qed.

Lemma unregister_idempotent uid self :
  unregister_connection uid (unregister_connection uid self) =
  unregister_connection uid self.
Proof.
  apply unregister_absent. rewrite unregister_connections. apply lookup_delete_eq.
Qed.

(** C5.  Deregistering a user id a second time changes nothing: the
    manager (connections, room of each user, member sets, room directory,
    metrics) after two calls is the manager after one.  And whatever
    registrations and deregistrations are run from the initial state,
    whatever the oracle holds, the run ends without an error and no room has a negative
    live-member count. *)
Theorem unregister_idempotent_counts_nonneg :
  (∀ (uid : string) (self : WebSocketManager),
     unregister_connection uid (unregister_connection uid self) =
     unregister_connection uid self)
  ∧ (∀ (ops : list RegistryOp) (redis : RedisManager) (now : Z)
       (o : list (SendOutcome * list EnvAction)),
       let result := run_ops ops (initial_world redis now o) in
       fst result = Ok tt
       ∧ ∀ (room : string) (r : ChatRoom),
           active_rooms (manager (snd result)) !! room = Some r →
           0 ≤ active_users r).
Proof.
  split; [apply unregister_idempotent |].
  intros ops redis now o result. split; [apply run_ops_returns |].
  apply (run_ops_sound ops (initial_world redis now o)), initial_sound.
Qed.

(** ** Counts and member sets agree *)

Lemma registry_ok_covers self : registry_ok self → directory_covers self.
Proof. intros Hok room. apply Hok. Qed.

Lemma registered_ok websocket user room self :
  registry_ok self → unused (user_id user) self →
  registry_ok (registered websocket user room self).
Proof.
  intros [Hdir Hcount Hmem] Hfresh. split.
  - intros k. unfold registered; cbn.
    destruct (decide (k = room)) as [->|Hk].
    + rewrite !lookup_insert_eq. split; eauto.
    + rewrite !lookup_insert_ne by done. apply Hdir.
  - intros k members r. unfold registered; cbn.
    destruct (decide (k = room)) as [->|Hk].
    + rewrite !lookup_insert_eq. intros [= <-] [= <-]. cbn.
      destruct (room_users self !! room) as [members0|] eqn:Hroom; cbn.
      * destruct (proj1 (Hdir room)) as [r0 Hr0]; [by rewrite Hroom |].
        rewrite Hr0. cbn. rewrite (Hcount room members0 r0) by done.
        rewrite size_union by (specialize (Hfresh room members0 Hroom); set_solver).
        rewrite size_singleton. lia.
      * rewrite size_union by set_solver.
        by rewrite size_empty, size_singleton.
    + rewrite !lookup_insert_ne by done. apply Hcount.
  - intros v room0. unfold registered; cbn.
    destruct (decide (v = user_id user)) as [->|Hv].
    + rewrite !lookup_insert_eq. intros _ [= <-].
      eexists. split; [apply lookup_insert_eq |]. set_solver.
    + rewrite !lookup_insert_ne by done. intros Hc Hr.
      destruct (Hmem v room0 Hc Hr) as (members & Hroom & Hin).
      destruct (decide (room0 = room)) as [->|Hk].
      * eexists. split; [apply lookup_insert_eq |]. rewrite Hroom. set_solver.
      * exists members. by rewrite lookup_insert_ne.
Qed.

Lemma registered_unused websocket user room self uid :
  unused uid self → uid ≠ user_id user →
  unused uid (registered websocket user room self).
Proof.
  intros Hun Hne k members. unfold registered; cbn.
  destruct (decide (k = room)) as [->|Hk].
  - rewrite lookup_insert_eq. intros [= <-].
    destruct (room_users self !! room) as [members0|] eqn:Hroom; cbn.
    + specialize (Hun room members0 Hroom). set_solver.
    + set_solver.
  - rewrite lookup_insert_ne by done. apply Hun.
Qed.

Lemma unregister_ok uid self :
  registry_ok self → registry_ok (unregister_connection uid self).
Proof.
  intros [Hdir Hcount Hmem].
  destruct (connections self !! uid) as [websocket|] eqn:Hconn;
    [|by rewrite unregister_absent].
  assert (∀ v room0 members,
            is_Some (delete uid (connections self) !! v) →
            user_rooms self !! v = Some room0 →
            room_users self !! room0 = Some members →
            v ≠ uid ∧ v ∈ members) as Hmem'.
  { intros v room0 members Hc Hr Hroom.
    destruct (decide (v = uid)) as [->|Hv].
    - rewrite lookup_delete_eq in Hc. by destruct Hc.
    - rewrite lookup_delete_ne in Hc by done.
      destruct (Hmem v room0 Hc Hr) as (members' & Hroom' & Hin).
      split; [done | congruence]. }
  split.
  - intros k. rewrite unregister_room_users, unregister_active_rooms, Hconn.
    destruct (user_rooms self !! uid) as [room|]; [|apply Hdir].
    destruct (decide (room ≠ "")); [|apply Hdir].
    destruct (room_users self !! room) as [members|] eqn:Hroom; [|apply Hdir].
    destruct (proj1 (Hdir room)) as [r Hr]; [by rewrite Hroom |]. rewrite Hr.
    destruct (decide (k = room)) as [->|Hk].
    + rewrite !lookup_insert_eq. split; eauto.
    + rewrite !lookup_insert_ne by done. apply Hdir.
  - intros k members0 r0. rewrite unregister_room_users, unregister_active_rooms, Hconn.
    destruct (user_rooms self !! uid) as [room|] eqn:Hur; [|apply Hcount].
    destruct (decide (room ≠ "")); [|apply Hcount].
    destruct (room_users self !! room) as [members|] eqn:Hroom; [|apply Hcount].
    destruct (proj1 (Hdir room)) as [r Hr]; [by rewrite Hroom |]. rewrite Hr.
    destruct (decide (k = room)) as [->|Hk].
    + rewrite !lookup_insert_eq. intros [= <-] [= <-]. cbn.
      destruct (Hmem uid room) as (members' & Hroom' & Hin); [by rewrite Hconn | done |].
      assert (members' = members) as -> by congruence.
      rewrite (Hcount room members r) by done.
      rewrite size_difference by set_solver. rewrite size_singleton.
      assert (size members ≠ 0)%nat.
      { intros Hz. apply size_empty_inv in Hz. set_solver. }
      lia.
    + rewrite !lookup_insert_ne by done. apply Hcount.
  - intros v room0. rewrite unregister_connections, unregister_user_rooms, Hconn.
    intros Hc Hr.
    assert (v ≠ uid) as Hv.
    { intros ->. rewrite lookup_delete_eq in Hc. by destruct Hc. }
    rewrite lookup_delete_ne in Hr by done.
    rewrite lookup_delete_ne in Hc by done.
    destruct (Hmem v room0 Hc Hr) as (members0 & Hroom0 & Hin).
    rewrite unregister_room_users, Hconn.
    destruct (user_rooms self !! uid) as [room|]; [|eauto].
    destruct (decide (room ≠ "")); [|eauto].
    destruct (room_users self !! room) as [members|] eqn:Hroom; [|eauto].
    destruct (decide (room0 = room)) as [->|Hk].
    + eexists. split; [apply lookup_insert_eq |].
      assert (members0 = members) as -> by congruence. set_solver.
    + exists members0. by rewrite lookup_insert_ne.
Qed.

Lemma unregister_unused v uid self :
  unused uid self → unused uid (unregister_connection v self).
Proof.
  intros Hun k members. rewrite unregister_room_users.
  destruct (connections self !! v); [|apply Hun].
  destruct (user_rooms self !! v) as [room|]; [|apply Hun].
  destruct (decide (room ≠ "")); [|apply Hun].
  destruct (room_users self !! room) as [members0|] eqn:Hroom; [|apply Hun].
  destruct (decide (k = room)) as [->|Hk].
  - rewrite lookup_insert_eq. intros [= <-].
    specialize (Hun room members0 Hroom). set_solver.
  - rewrite lookup_insert_ne by done. apply Hun.
Qed.

Lemma unregister_consistent fut uid w :
  consistent fut w →
  consistent fut (mkWorld (unregister_connection uid (manager w)) (trace w) (oracle w)).
Proof.
  intros (Hok & Hnd & Hun). split; [by apply unregister_ok |]. split; [done |].
  eapply Forall_impl; [exact Hun |]. intros u. apply unregister_unused.
Qed.

Lemma register_connection_consistent fut websocket user room w :
  consistent (user_id user :: fut) w →
  consistent fut (snd (register_connection websocket user room w)).
Proof.
  intros (Hok & Hnd & Hun).
  rewrite <- Permutation_middle in Hnd, Hun.
  apply NoDup_cons in Hnd as [Hnotin Hnd].
  apply Forall_cons in Hun as [Hfresh Hun].
  rewrite register_connection_covered by by apply registry_ok_covers.
  cbn [snd]. split; [|split; [done |]]; cbn [manager oracle].
  - apply (unregister_all_keeps registry_ok); [intros self0 v; apply unregister_ok |].
    by apply registered_ok.
  - apply Forall_forall. intros uid Hin.
    apply (unregister_all_keeps (unused uid)); [intros self0 v; apply unregister_unused |].
    apply registered_unused.
    + rewrite Forall_forall in Hun. by apply Hun.
    + by intros ->.
Qed.

Lemma run_ops_consistent ops w :
  consistent (op_ids ops) w → consistent [] (snd (run_ops ops w)).
Proof.
  revert w. induction ops as [|op ops IH]; intros w Hc; [done |].
  rewrite run_ops_cons. apply IH. destruct op as [websocket user room|uid].
  - by apply register_connection_consistent.
  - by apply unregister_consistent.
Qed.

Lemma initial_consistent redis now o fut :
  NoDup (oracle_ids o ++ fut) → consistent fut (initial_world redis now o).
Proof.
  intros Hnd. split; [|split; [done |]].
  - split.
    + intros room. cbn. rewrite !lookup_empty. split; by intros [? ?].
    + intros room members r. cbn. by rewrite lookup_empty.
    + intros uid room [? Hc]. cbn in Hc. by rewrite lookup_empty in Hc.
  - apply Forall_forall. intros uid _ room members. cbn. by rewrite lookup_empty.
Qed.

(** C7.  Take any registrations and deregistrations run from the initial
    state, in any order (none of them is suspended, so the operations of
    different handlers follow one another), where the user ids being
    registered are pairwise distinct (each comes from its own
    [uuid.uuid4()] call).  Once they have completed, the member sets and
    the room directory list the same rooms, and each room's [active_users]
    is the size of its member set. *)
Theorem counts_match_member_sets ops redis now o :
  NoDup (oracle_ids o ++ op_ids ops) →
  let self := manager (snd (run_ops ops (initial_world redis now o))) in
  (∀ room r,
     active_rooms self !! room = Some r →
     ∃ members, room_users self !! room = Some members
                ∧ active_users r = Z.of_nat (size members))
  ∧ (∀ room members,
       room_users self !! room = Some members →
       ∃ r, active_rooms self !! room = Some r
            ∧ active_users r = Z.of_nat (size members)).
Proof.
  intros Hnd self.
  destruct (run_ops_consistent ops (initial_world redis now o)) as ([Hdir Hcount _] & _).
  { by apply initial_consistent. }
  fold self in Hdir, Hcount. split.
  - intros room r Hr.
    destruct (proj2 (Hdir room)) as [members Hm]; [by rewrite Hr |]. eauto.
  - intros room members Hm.
    destruct (proj1 (Hdir room)) as [r Hr]; [by rewrite Hm |]. eauto.
Qed.

(** ** Counters after two joins and one leave *)

Lemma join_metrics websocket user room self :
  directory_covers self →
  metrics (join websocket user room self) = incr_connection_count (metrics self).
Proof.
  intros Hdir. rewrite join_covered by done. by rewrite unregister_all_metrics.
Qed.

(** C1, as the counters are kept.  [unregister_connection] does not touch
    the metrics, and [disconnection_count] grows only in the [except]
    clause of [register_connection].  So after two registrations and one
    deregistration run from the initial state with no other registry
    activity, [connection_count] is 2, [disconnection_count] is 0, and the
    status reports an uptime of exactly 100.0. *)
Theorem status_after_two_joins_one_leave
    websocket1 user1 room1 websocket2 user2 room2 uid redis now o :
  quiet o →
  let w := snd (run_ops [op_register websocket1 user1 room1;
                         op_register websocket2 user2 room2;
                         op_unregister uid] (initial_world redis now o)) in
  connection_count (metrics (manager w)) = 2
  ∧ disconnection_count (metrics (manager w)) = 0
  ∧ st_uptime_percentage (get_system_status (manager w)) = 100%float.
Proof.
  intros Hq. rewrite !run_ops_cons. cbn [run_op run_ops for_each ret snd].
  rewrite !register_connection_join. cbn [snd manager].
  rewrite on_manager_modify. cbn [snd manager initial_world].
  set (self0 := WebSocketManager_init redis now).
  set (self := unregister_connection uid _).
  assert (metrics self =
          incr_connection_count (incr_connection_count (AvailabilityMetrics_init now)))
    as Hm.
  { subst self. rewrite unregister_metrics.
    rewrite join_metrics by apply join_sound, initial_sound.
    by rewrite join_metrics by apply initial_sound. }
  unfold get_system_status, st_uptime_percentage. rewrite Hm.
  split; [done |]. split; [done |]. reflexivity.
Qed.

(** ** Messages of a user that has no room *)


(** ** The broadcast loop and concurrent membership changes *)

(** C2 on runs the server can have.  Alice is alone in room R1 and sends
    "hello"; while the send of the broadcast (to herself) is awaited, Carol
    joins R1 and her connection closes again.  The loop is over the live
    member set, whose size has changed when the send returns, so the next
    step of the iteration raises [RuntimeError]: the broadcast is cut
    short and [handle_chat_message] counts a failed message and returns
    [False].  A pass over a copy of the member set completes on the same
    run.  The same happens to Xena, alone in the room with the empty id,
    when Carol joins that room during the send. *)
Theorem broadcast_iterates_live_set :
  let w := alice_in_room [(Delivered, [env_register 3%nat carol "R1"; env_unregister "c"])] in
  let message := chat_message (hello_from_alice w) in
  let w2 := xena_in_empty_room [(Delivered, [env_register 3%nat carol ""])] in
  let message2 := chat_message (new_message xena "hi" "m2" 6 (user_rooms (manager w2))) in
  (room_users (manager w) !! "R1" = Some {["a"]}
   ∧ connections (manager w) !! "a" = Some 1%nat
   ∧ fst (broadcast_to_room "R1" message None w) = Raise RuntimeError
   ∧ fst (broadcast_snapshot "R1" message None w) = Ok (Some (1, []))
   ∧ fst (handle_chat_message alice "hello" "m1" 5 w) = Ok false
   ∧ failed_messages (metrics (manager (snd (handle_chat_message alice "hello" "m1" 5 w))))
     = 1)
  ∧ (room_users (manager w2) !! "" = Some {["x"]}
     ∧ connections (manager w2) !! "x" = Some 1%nat
     ∧ fst (broadcast_to_room "" message2 None w2) = Raise RuntimeError
     ∧ fst (broadcast_snapshot "" message2 None w2) = Ok (Some (1, []))
     ∧ fst (handle_chat_message xena "hi" "m2" 6 w2) = Ok false).
Proof. vm_compute. done. Qed.

(** C6 on a run the server can have.  Alice is alone in room R1 and sends
    "hello"; the send of the broadcast (to herself) is handed to the
    transport and ends in [ConnectionClosed], and while it was awaited
    Carol joined R1 and her connection closed again.  The failure is
    recorded, but the next step of the iteration over the live member set
    raises [RuntimeError]: the broadcast raises, and its cleanup loop is
    never reached.  On the same run a pass over a copy of the member set
    returns with Alice reported as failed, and so does the pass of the
    code when Carol stays away. *)
Theorem disturbed_broadcast_raises :
  let w := alice_in_room [(Closed, [env_register 3%nat carol "R1"; env_unregister "c"])] in
  let message := chat_message (hello_from_alice w) in
  let result := broadcast_to_room "R1" message None w in
  room_users (manager w) !! "R1" = Some {["a"]}
  ∧ trace (snd result) = trace w ++ [mkEvent "a" 1%nat message Closed]
  ∧ fst result = Raise RuntimeError
  ∧ fst (broadcast_snapshot "R1" message None w) = Ok (Some (0, ["a"]))
  ∧ fst (broadcast_to_room "R1" message None (alice_in_room [(Closed, [])]))
    = Ok (Some (0, ["a"])).
Proof. vm_compute. done. Qed.

(** ** Example runs of the theorems *)

Ltac decide_by_compute := apply (bool_decide_unpack _); vm_compute; exact I.

Lemma status_after_two_joins_one_leave_witness :
  quiet []
  ∧ let w := snd (run_ops [op_register 1%nat alice "R1"; op_register 2%nat bob "R1";
                           op_unregister "a"] (initial_world no_redis 0 [])) in
    connection_count (metrics (manager w)) = 2
    ∧ disconnection_count (metrics (manager w)) = 0
    ∧ st_uptime_percentage (get_system_status (manager w)) = 100%float.
Proof.
  split; [decide_by_compute |].
  apply (status_after_two_joins_one_leave 1%nat alice "R1" 2%nat bob "R1" "a").
  decide_by_compute.
Defined.

(** C1 as the spec states it fails on scenario 1 then 2: Alice and Bob
    join R1 and Alice disconnects, all through [handle_client]; the claimed
    counters and uptime are not the ones the server holds. *)
Lemma status_after_scenario_not_as_claimed :
  ¬ (connection_count (metrics (manager alice_gone)) = 2
     ∧ disconnection_count (metrics (manager alice_gone)) = 1
     ∧ st_uptime_percentage (get_system_status (manager alice_gone)) = 50%float).
Proof. vm_compute. by intros (_ & ? & _). Qed.

Lemma confirmation_precedes_join_notices_witness :
  let w := alice_in_room [] in
  let result := client_connect 2%nat (Some auth_bob) "b" w in
  let sent := drop (length (trace w)) (trace (snd result)) in
  UserRole_of_value (default "viewer" (auth_role auth_bob)) = Some VIEWER
  ∧ ∃ outcome,
      trace (snd result) = trace w ++ sent
      ∧ sent = [mkEvent "b" 2%nat (connection_confirmed "b" "R1") outcome]
      ∧ confirmation_first "b" sent
      ∧ (∀ e other n, e ∈ sent → ev_payload e ≠ user_joined other n)
      ∧ fst result = Ok (if decide (outcome = Delivered) then Some bob else None).
Proof.
  cbv zeta. split; [reflexivity |].
  apply (confirmation_precedes_join_notices 2%nat auth_bob "b" VIEWER (alice_in_room [])).
  reflexivity.
Defined.

Lemma counts_match_member_sets_witness :
  let ops := [op_register 1%nat alice "R1"; op_register 2%nat bob "R1";
              op_unregister "a"] in
  let o := [(Delivered, [env_register 3%nat carol "R1"])] in
  NoDup (oracle_ids o ++ op_ids ops)
  ∧ let self := manager (snd (run_ops ops (initial_world no_redis 0 o))) in
    (∀ room r,
       active_rooms self !! room = Some r →
       ∃ members, room_users self !! room = Some members
                  ∧ active_users r = Z.of_nat (size members))
    ∧ (∀ room members,
         room_users self !! room = Some members →
         ∃ r, active_rooms self !! room = Some r
              ∧ active_users r = Z.of_nat (size members)).
Proof.
  cbv zeta.
  assert (NoDup (oracle_ids [(Delivered, [env_register 3%nat carol "R1"])]
                 ++ op_ids [op_register 1%nat alice "R1"; op_register 2%nat bob "R1";
                            op_unregister "a"])) as Hnd
    by decide_by_compute.
  split; [exact Hnd |].
  exact (counts_match_member_sets _ no_redis 0 _ Hnd).
Defined.

Lemma rejected_message_dropped_witness :
  let w := bob_joined [] in
  moderate_message (moderation_service (manager w))
    (new_message bob "this is SPAM" "m2" 6 (user_rooms (manager w))) bob = false
  ∧ handle_chat_message bob "this is SPAM" "m2" 6 w = (Ok false, w).
Proof.
  cbv zeta. split; [by vm_compute |].
  apply (rejected_message_dropped bob "this is SPAM" "m2" 6 (bob_joined [])).
  by vm_compute.
Defined.

(** Xena is a member of the room with the empty id without a connection;
    Yves sends "hi" there, and Carol joins the room while the send to Yves
    is awaited. *)
Lemma broadcast_skips_unconnected_witness :
  let w := xena_left_behind [(Delivered, [env_register 3%nat carol ""])] in
  let message := chat_message (new_message yves "hi" "m3" 8 (user_rooms (manager w))) in
  let result := broadcast_to_room "" message None w in
  room_users (manager w) !! "" = Some {["x"; "y"]}
  ∧ "x" ∈ ({["x"; "y"]} : gset string)
  ∧ connections (manager w) !! "x" = None
  ∧ ("x" ∉ oracle_ids (oracle w))
  ∧ ∃ new,
      trace (snd result) = trace w ++ new
      ∧ Forall (λ e, ev_user e ≠ "x") new
      ∧ connections (manager (snd result)) !! "x" = None
      ∧ (∃ members', room_users (manager (snd result)) !! "" = Some members'
                     ∧ "x" ∈ members')
      ∧ match fst result with
        | Ok (Some (ok, failed)) =>
            ok = successes new
            ∧ ("x" ∉ failed)
            ∧ (serialisable message = true → failed = failures new)
        | Ok None => False
        | Raise e => e = RuntimeError
        end.
Proof.
  cbv zeta.
  set (w := xena_left_behind [(Delivered, [env_register 3%nat carol ""])]).
  assert (room_users (manager w) !! "" = Some {["x"; "y"]}) as H1 by by vm_compute.
  assert ("x" ∈ ({["x"; "y"]} : gset string)) as H2 by set_solver.
  assert (connections (manager w) !! "x" = None) as H3 by by vm_compute.
  assert ("x" ∉ oracle_ids (oracle w)) as H4 by decide_by_compute.
  do 4 (split; [done |]).
  exact (broadcast_skips_unconnected "" _ None _ "x" w H1 H2 H3 H4).
Defined.



(** After scenario 1 then 2, Bob asks for the status: the reply sent to
    him carries the status computed from the counters above. *)
Example status_reply_after_scenario :
  last (trace (snd (client_frame 2%nat bob (typed (Some "system_status") None)
                      "" 9 alice_gone))) =
  Some (mkEvent "b" 2%nat
          (system_status_response (mkStatus 100 100 1 1 0 0 false)) Delivered).
Proof. reflexivity. Qed.

(** ** Counters only grow *)

Lemma metrics_le_refl m : metrics_le m m.
Proof. unfold metrics_le. lia. Qed.

Lemma register_prefix_metrics_le m0 websocket user room self :
  metrics_le m0 (metrics self) →
  metrics_le m0 (metrics (snd (register_prefix websocket user room self))).
Proof.
  intros Hle.
  destruct (register_prefix_cases websocket user room self)
    as [->|(self' & -> & _ & _ & Hm & _)]; cbn [snd].
  - unfold metrics_le in *. cbn. lia.
  - by rewrite Hm.
Qed.

(** X6.  No operation of the manager ever lowers a metrics counter,
    whatever the sends do and whatever the other handlers do in between
    (which only raises counters too):
    after any run of registrations and deregistrations, after any
    [handle_chat_message], and after a whole [handle_client], each of the
    four counters is at least what it was. *)
Theorem counters_never_decrease (w : World) :
  (∀ ops, metrics_le (metrics (manager w)) (metrics (manager (snd (run_ops ops w)))))
  ∧ (∀ user text fresh_id now,
       metrics_le (metrics (manager w))
         (metrics (manager (snd (handle_chat_message user text fresh_id now w)))))
  ∧ (∀ websocket auth fresh_id inbox,
       metrics_le (metrics (manager w))
         (metrics (manager (snd (handle_client websocket auth fresh_id inbox w))))).
Proof.
  set (P := λ self, metrics_le (metrics (manager w)) (metrics self)).
  assert (∀ self ws user room, P self → P (snd (register_prefix ws user room self))) as H1
    by (intros; by apply register_prefix_metrics_le).
  assert (∀ self uid, P self → P (unregister_connection uid self)) as H2
    by (intros self uid HP; unfold P; by rewrite unregister_metrics).
  assert (∀ self, P self → P (set_metrics incr_disconnection_count self)) as H3
    by (intros self HP; unfold P, metrics_le in *; cbn; lia).
  assert (∀ self r, P self → P (set_redis_manager r self)) as H4 by (intros; done).
  assert (∀ self, P self → P (set_metrics incr_message_count self)) as H5
    by (intros self HP; unfold P, metrics_le in *; cbn; lia).
  assert (∀ self, P self → P (set_metrics incr_failed_messages self)) as H6
    by (intros self HP; unfold P, metrics_le in *; cbn; lia).
  assert (P (manager w)) as H0 by apply metrics_le_refl.
  split; [|split].
  - intros ops. by apply (run_ops_keeps P).
  - intros user text fresh_id now. by apply (handle_chat_message_keeps P).
  - intros websocket auth fresh_id inbox. by apply (handle_client_keeps P).
Qed.

(** ** Every approved message is counted once *)

Lemma register_prefix_message_counters websocket user room self :
  message_count (metrics (snd (register_prefix websocket user room self))) =
    message_count (metrics self)
  ∧ failed_messages (metrics (snd (register_prefix websocket user room self))) =
    failed_messages (metrics self).
Proof.
  destruct (register_prefix_cases websocket user room self)
    as [->|(self' & -> & _ & _ & Hm & _)]; cbn [snd]; [done |].
  by rewrite Hm.
Qed.

(** X7.  For a message that moderation approves, [handle_chat_message]
    ends in one of two ways, whatever the outcome of its sends and
    whatever joins and leaves happen meanwhile: it returns [True] and
    [message_count] has grown by one with [failed_messages] unchanged, or
    it returns [False] and [failed_messages] has grown by one with
    [message_count] unchanged.  This is the count of this call: it is
    stated for a call during which no other handler is inside a
    [handle_chat_message] of its own, which would add its own count. *)
Theorem approved_message_counted_once user text fresh_id now w :
  no_other_chat (oracle w) →
  moderate_message (moderation_service (manager w))
    (new_message user text fresh_id now (user_rooms (manager w))) user = true →
  let result := handle_chat_message user text fresh_id now w in
  let m := metrics (manager w) in
  let m' := metrics (manager (snd result)) in
  (fst result = Ok true
   ∧ message_count m' = message_count m + 1
   ∧ failed_messages m' = failed_messages m)
  ∨ (fst result = Ok false
     ∧ message_count m' = message_count m
     ∧ failed_messages m' = failed_messages m + 1).
Proof.
  intros Hno Hok. cbv zeta.
  destruct (handle_chat_message user text fresh_id now w) as [result w'] eqn:Hrun.
  cbn [fst snd]. revert Hrun.
  set (P := λ self, message_count (metrics self) = message_count (metrics (manager w))
                    ∧ failed_messages (metrics self) = failed_messages (metrics (manager w))).
  assert (∀ self ws u room, P self → P (snd (register_prefix ws u room self))) as H1.
  { intros self ws u room HP. unfold P in *.
    destruct (register_prefix_message_counters ws u room self) as [E1 E2].
    by rewrite E1, E2. }
  assert (∀ self uid, P self → P (unregister_connection uid self)) as H2
    by (intros self uid HP; unfold P; by rewrite unregister_metrics).
  assert (∀ self, P self → P (set_metrics incr_disconnection_count self)) as H3
    by (intros self HP; exact HP).
  unfold handle_chat_message, try_except.
  rewrite bind_run. cbn [gets]. rewrite bind_run. cbn [gets].
  rewrite Hok. cbn [negb].
  rewrite bind_run. unfold on_manager at 1.
  destruct (store_message _ (redis_manager (manager w))) as [stored redis'].
  rewrite bind_run.
  pose proof (broadcast_keeps_registry P H1 H2 H3
                (m_room_id (new_message user text fresh_id now (user_rooms (manager w))))
                (chat_message (new_message user text fresh_id now (user_rooms (manager w))))
                None (mkWorld (set_redis_manager redis' (manager w)) (trace w) (oracle w))
                Hno (conj eq_refl eq_refl))
    as Hb.
  destruct (broadcast_to_room _ _ _ _) as [[res|e] w1]; cbn [snd] in Hb;
    destruct Hb as [Hb1 Hb2];
    rewrite bind_run, on_manager_modify; cbn; intros [= <- <-]; cbn;
    [left | right]; (split; [done | lia]).
Qed.

(** ** What is stored *)

(** X9.  For a message that moderation approves, the store attempt is made
    before the broadcast and its result stands whatever happens next,
    whatever the outcome of the sends and whatever joins and leaves happen
    meanwhile, even when the broadcast raises: with a reachable client the
    message is appended under the key "messages:<room>:<id>" with a time
    to live of 3600; with an unreachable client or none, the Redis state
    is the one the call started from.  This is the write of this call: it
    is stated for a call during which no other handler is inside a
    [handle_chat_message] of its own, which would add its own write. *)
Theorem approved_message_stored user text fresh_id now w :
  no_other_chat (oracle w) →
  moderate_message (moderation_service (manager w))
    (new_message user text fresh_id now (user_rooms (manager w))) user = true →
  let message := new_message user text fresh_id now (user_rooms (manager w)) in
  redis_client (redis_manager (manager (snd (handle_chat_message user text fresh_id now w))))
  = match redis_client (redis_manager (manager w)) with
    | Some client =>
        if reachable client
        then Some {| reachable := true;
                     stored := stored client
                               ++ [("messages:" +:+ m_room_id message +:+ ":" +:+ fresh_id,
                                    3600, message)] |}
        else Some client
    | None => None
    end.
Proof.
  intros Hno Hok message.
  set (r := snd (store_message message (redis_manager (manager w)))).
  set (P := λ self, redis_manager self = r).
  assert (∀ self ws u room, P self → P (snd (register_prefix ws u room self))) as H1.
  { intros self ws u room HP.
    destruct (register_prefix_cases ws u room self)
      as [->|(self' & -> & _ & _ & _ & _ & Hr & _)]; cbn [snd]; [done |].
    unfold P. by rewrite Hr. }
  assert (∀ self uid, P self → P (unregister_connection uid self)) as H2.
  { intros self uid HP. unfold P, unregister_connection.
    destruct (connections self !! uid); [|done].
    destruct (user_rooms self !! uid) as [room|]; [|done].
    destruct (decide (room ≠ "")); [|done].
    destruct (room_users self !! room); [|done].
    cbn. by destruct (active_rooms self !! room). }
  assert (∀ self, P self → P (set_metrics incr_disconnection_count self)) as H3
    by (intros self HP; exact HP).
  assert (redis_manager (manager (snd (handle_chat_message user text fresh_id now w))) = r)
    as ->.
  { unfold handle_chat_message, try_except.
    rewrite bind_run. cbn [gets]. rewrite bind_run. cbn [gets].
    rewrite Hok. cbn [negb]. fold message.
    rewrite bind_run. unfold on_manager at 1.
    subst r. destruct (store_message message (redis_manager (manager w))) as [stored redis'].
    cbn [snd] in *. rewrite bind_run.
    pose proof (broadcast_keeps_registry P H1 H2 H3 (m_room_id message)
                  (chat_message message) None
                  (mkWorld (set_redis_manager redis' (manager w)) (trace w) (oracle w))
                  Hno eq_refl) as Hb.
    destruct (broadcast_to_room _ _ _ _) as [[res|e] w1]; cbn [snd] in Hb;
      rewrite bind_run, on_manager_modify; exact Hb. }
  subst r. unfold store_message.
  destruct (redis_client (redis_manager (manager w))) as [client|] eqn:Hclient;
    [|exact Hclient].
  destruct (reachable client); [reflexivity | exact Hclient].
Qed.

(** ** Rooms are never removed *)

(** X5.  Once a room is known it stays known, even when it has no member
    left: after any run of registrations and deregistrations and after a
    whole [handle_client], under any send outcomes and any interleaving,
    the rooms with a member set and the rooms of the directory include
    those there were before. *)
Theorem rooms_never_removed (w : World) :
  (∀ ops,
     dom (room_users (manager w)) ⊆ dom (room_users (manager (snd (run_ops ops w))))
     ∧ dom (active_rooms (manager w)) ⊆ dom (active_rooms (manager (snd (run_ops ops w)))))
  ∧ (∀ websocket auth fresh_id inbox,
       dom (room_users (manager w))
         ⊆ dom (room_users (manager (snd (handle_client websocket auth fresh_id inbox w))))
       ∧ dom (active_rooms (manager w))
         ⊆ dom (active_rooms (manager (snd (handle_client websocket auth fresh_id inbox w))))).
Proof.
  set (P := λ self, dom (room_users (manager w)) ⊆ dom (room_users self)
                    ∧ dom (active_rooms (manager w)) ⊆ dom (active_rooms self)).
  assert (∀ self ws u room, P self → P (snd (register_prefix ws u room self))) as H1.
  { intros self ws u room [HP1 HP2].
    destruct (register_prefix_cases ws u room self)
      as [->|(self' & -> & _ & _ & _ & Ha & _ & _ & Hd)]; cbn [snd].
    - unfold P, registered; cbn. rewrite !dom_insert_L. set_solver.
    - unfold P. rewrite Ha, Hd. by split. }
  assert (∀ self uid, P self → P (unregister_connection uid self)) as H2.
  { intros self uid [HP1 HP2]. unfold P.
    rewrite unregister_room_users, unregister_active_rooms.
    destruct (connections self !! uid); [|done].
    destruct (user_rooms self !! uid) as [room|]; [|done].
    destruct (decide (room ≠ "")); [|done].
    destruct (room_users self !! room); [|done].
    rewrite dom_insert_L.
    destruct (active_rooms self !! room); [rewrite dom_insert_L|]; set_solver. }
  assert (∀ self, P self → P (set_metrics incr_disconnection_count self)) as H3
    by (intros self HP; exact HP).
  assert (∀ self r, P self → P (set_redis_manager r self)) as H4 by (intros; done).
  assert (∀ self, P self → P (set_metrics incr_message_count self)) as H5
    by (intros self HP; exact HP).
  assert (∀ self, P self → P (set_metrics incr_failed_messages self)) as H6
    by (intros self HP; exact HP).
  assert (P (manager w)) as H0 by done.
  split.
  - intros ops. by apply (run_ops_keeps P).
  - intros websocket auth fresh_id inbox. by apply (handle_client_keeps P).
Qed.

(** ** The handler: authentication, frames, cleanup *)

Lemma UserRole_of_value_None (value : string) :
  UserRole_of_value value = None ↔ value ∉ ["viewer"; "moderator"; "streamer"].
Proof.
  unfold UserRole_of_value. rewrite !not_elem_of_cons.
  repeat case_decide; subst; split; try done; try naive_solver.
  intros _. repeat split; try done. apply not_elem_of_nil.
Qed.

(** X1.  When no first frame arrives or it is not JSON, or when it carries
    a [role] that is none of "viewer", "moderator", "streamer", the
    handler ends at once: no user is made, nothing is registered, counted
    or sent, and the frames that follow are never looked at. *)
Theorem rejected_authentication_changes_nothing websocket auth fresh_id w :
  auth = None
  ∨ (∃ auth_data value, auth = Some auth_data
                        ∧ auth_role auth_data = Some value
                        ∧ value ∉ ["viewer"; "moderator"; "streamer"]) →
  client_connect websocket auth fresh_id w = (Ok None, w)
  ∧ ∀ inbox, handle_client websocket auth fresh_id inbox w = (Ok tt, w).
Proof.
  intros Hbad.
  assert (client_connect websocket auth fresh_id w = (Ok None, w)) as Hc.
  { destruct Hbad as [->|(auth_data & value & -> & Hrole & Hnot)]; [done |].
    unfold client_connect. rewrite Hrole. cbn [default from_option id].
    apply UserRole_of_value_None in Hnot. unfold id. by rewrite Hnot. }
  split; [done |]. intros inbox. by rewrite handle_client_run, Hc.
Qed.

Lemma client_connect_accepted websocket auth_data fresh_id r w :
  UserRole_of_value (default "viewer" (auth_role auth_data)) = Some r →
  let user := mkUser fresh_id (default "Anonymous" (auth_username auth_data)) r true in
  ∃ w1, (client_connect websocket (Some auth_data) fresh_id w = (Ok (Some user), w1))
        ∨ (client_connect websocket (Some auth_data) fresh_id w = (Ok None, w1)
           ∧ connections (manager w1) !! fresh_id = None).
Proof.
  intros Hrole user. unfold client_connect. rewrite Hrole. fold user.
  rewrite bind_run.
  pose proof (register_connection_returns websocket user
                (default "general" (auth_room_id auth_data)) w) as Hret.
  destruct (register_connection _ _ _ w) as [res w1]. cbn [fst] in Hret. subst res.
  rewrite bind_run. unfold attempt.
  destruct (send _ _ _ w1) as [[[]|e] w2]; [by eexists; left |].
  rewrite bind_run, on_manager_modify. eexists. right. split; [done |].
  cbn. rewrite unregister_connections. apply lookup_delete_eq.
Qed.

(** X12.  A handler that accepted a first frame whose [room_id] is a
    string, or absent, always ends with its user deregistered, whatever
    frames arrive, however the sends end and whatever the other handlers
    do: [handle_client] returns without an error and [connections] has no
    entry for the handler's user id. *)
Theorem handle_client_always_deregisters websocket auth_data fresh_id r inbox w :
  UserRole_of_value (default "viewer" (auth_role auth_data)) = Some r →
  let w' := snd (handle_client websocket (Some auth_data) fresh_id inbox w) in
  fst (handle_client websocket (Some auth_data) fresh_id inbox w) = Ok tt
  ∧ connections (manager w') !! fresh_id = None.
Proof.
  intros Hrole. cbv zeta. rewrite handle_client_run.
  destruct (client_connect_accepted websocket auth_data fresh_id r w Hrole)
    as (w1 & [-> | [-> Hgone]]).
  - cbn. split; [done |]. rewrite unregister_connections. apply lookup_delete_eq.
  - done.
Qed.

(** X11.  No inbound frame ends the receive loop: [client_frame] returns
    without an error for every frame, under any send outcomes and any
    interleaving.  A frame that is not JSON, or whose [type] is absent or
    is neither "chat_message" nor "system_status", leaves the world as it
    was. *)
Theorem client_frame_never_raises websocket user frame fresh_id now w :
  fst (client_frame websocket user frame fresh_id now w) = Ok tt
  ∧ (frame = malformed
     ∨ (∃ type_tag text, frame = typed type_tag text
                         ∧ type_tag ≠ Some "chat_message"
                         ∧ type_tag ≠ Some "system_status") →
     snd (client_frame websocket user frame fresh_id now w) = w).
Proof.
  split; [apply client_frame_returns |].
  intros [->|(type_tag & text & -> & Hchat & Hstatus)]; [done |].
  unfold client_frame. by rewrite !decide_False.
Qed.

(** X10.  A "system_status" frame is answered with exactly one send, to
    the requester's own connection, carrying the status computed from the
    manager as it was when the frame was handled; the handler goes on
    whether or not that send went through, and when no other handler is
    active the manager is left as it was. *)
Theorem status_request_answered websocket user text fresh_id now w :
  let w' := snd (client_frame websocket user (typed (Some "system_status") text)
                   fresh_id now w) in
  ∃ outcome,
    trace w' = trace w ++ [mkEvent (user_id user) websocket
                             (system_status_response (get_system_status (manager w)))
                             outcome]
    ∧ fst (client_frame websocket user (typed (Some "system_status") text)
             fresh_id now w) = Ok tt
    ∧ (quiet (oracle w) → manager w' = manager w).
Proof.
  cbv zeta. unfold client_frame.
  rewrite decide_False by done. rewrite decide_True by done.
  rewrite bind_run. cbn [gets]. rewrite bind_run. unfold attempt.
  destruct (send_trace (user_id user) websocket
              (system_status_response (get_system_status (manager w))) w eq_refl)
    as (outcome & _ & Ht).
  pose proof (send_quiet (user_id user) websocket
                (system_status_response (get_system_status (manager w))) w eq_refl) as Hq.
  destruct (send _ _ _ w) as [res w1]. cbn [fst snd] in *.
  exists outcome. split; [done |]. split; [done |].
  intros Hquiet. specialize (Hq Hquiet). by injection Hq as _ ->.
Qed.

(** ** A pass in which every send goes through *)







(** ** What a registration leaves behind *)

Lemma join_targets_not_new self uid (targets : list string) :
  uid ∉ deliverable self (Some uid) targets.
Proof.
  unfold deliverable. intros [[Hne _] _]%list_elem_of_filter. done.
Qed.

(** X2.  On a registry whose rooms all have a directory entry,
    [register_connection] returns with the user registered and hands
    nothing to the transport: [connections] maps the user's id to the
    given handle, [user_rooms] maps it to the room, it is in the room's
    member set, [connection_count] has grown by one and
    [disconnection_count] has not moved.  No [user_joined] notice reaches
    anybody: [json.dumps] raises on its payload, each attempt is recorded
    as a failed delivery, and so every other member of the room is left
    without a connection, and without a recorded room if it had a
    connection. *)
Theorem register_connection_registers websocket user room w :
  directory_covers (manager w) →
  let uid := user_id user in
  let members := default ∅ (room_users (manager w) !! room) in
  ∃ w',
    register_connection websocket user room w = (Ok tt, w')
    ∧ trace w' = trace w
    ∧ oracle w' = oracle w
    ∧ connections (manager w') !! uid = Some websocket
    ∧ user_rooms (manager w') !! uid = Some room
    ∧ (∃ members', room_users (manager w') !! room = Some members' ∧ uid ∈ members')
    ∧ connection_count (metrics (manager w')) = connection_count (metrics (manager w)) + 1
    ∧ disconnection_count (metrics (manager w')) = disconnection_count (metrics (manager w))
    ∧ ∀ v, v ∈ members → v ≠ uid →
        connections (manager w') !! v = None
        ∧ (is_Some (connections (manager w) !! v) → user_rooms (manager w') !! v = None).
Proof.
  intros Hdir. cbv zeta.
  rewrite register_connection_covered by done.
  set (uid := user_id user).
  set (members := default ∅ (room_users (manager w) !! room)).
  set (self1 := registered websocket user room (manager w)).
  set (evicted := deliverable self1 (Some uid) (elements (members ∪ {[uid]}))).
  assert (uid ∉ evicted) as Hkept by apply join_targets_not_new.
  eexists. split; [done |]. cbn [trace oracle manager].
  do 2 (split; [done |]).
  split; [|split; [|split; [|split; [|split]]]].
  - rewrite unregister_all_connections_other by done. apply lookup_insert_eq.
  - rewrite unregister_all_user_rooms_other by done. apply lookup_insert_eq.
  - apply (unregister_all_keeps_member _ _ _ (members ∪ {[uid]})); [done | |set_solver].
    apply lookup_insert_eq.
  - by rewrite unregister_all_metrics.
  - by rewrite unregister_all_metrics.
  - intros v Hv Hne.
    assert (connections self1 !! v = connections (manager w) !! v) as Hsame
      by (subst self1; unfold registered; cbn; by rewrite lookup_insert_ne).
    destruct (connections (manager w) !! v) as [ws|] eqn:Hc.
    + assert (v ∈ evicted) as Hin.
      { subst evicted. unfold deliverable. apply list_elem_of_filter. split.
        - split; [congruence |]. rewrite Hsame. eauto.
        - apply elem_of_elements. set_solver. }
      destruct (unregister_all_gone evicted self1 v Hin) as [H1 H2].
      split; [done |]. intros _. apply H2. rewrite Hsame. eauto.
    + split; [|by intros [? ?]]. by apply unregister_all_connections_None.
Qed.

(** ** Runs of registrations and deregistrations *)

(** X14.  While no other handler is active, a registration never takes
    its [except] path: after any run of registrations and deregistrations
    from a state whose rooms all have a directory entry and a non-negative
    count, [connection_count] has grown by the number of registrations and
    the three other counters are unchanged. *)
Theorem quiet_run_counts ops w :
  quiet (oracle w) → sound (manager w) →
  let m := metrics (manager w) in
  let m' := metrics (manager (snd (run_ops ops w))) in
  connection_count m' = connection_count m + Z.of_nat (length (op_ids ops))
  ∧ disconnection_count m' = disconnection_count m
  ∧ message_count m' = message_count m
  ∧ failed_messages m' = failed_messages m.
Proof.
  cbv zeta. revert w. induction ops as [|op ops IH]; intros w Hq Hs.
  { cbn. lia. }
  rewrite run_ops_cons. destruct op as [websocket user room|uid].
  - cbn [run_op]. rewrite register_connection_join. cbn [snd].
    destruct (IH (mkWorld (join websocket user room (manager w)) (trace w) (oracle w)))
      as (H1 & H2 & H3 & H4); [done | by apply join_sound |].
    cbn [manager] in *. rewrite H1, H2, H3, H4, join_metrics by apply Hs.
    change (op_ids (op_register websocket user room :: ops))
      with (user_id user :: op_ids ops).
    cbn [length]. cbn. lia.
  - cbn [run_op]. rewrite on_manager_modify. cbn [snd].
    destruct (IH (mkWorld (unregister_connection uid (manager w)) (trace w) (oracle w)))
      as (H1 & H2 & H3 & H4); [done | by apply unregister_sound |].
    cbn [manager] in *. rewrite unregister_metrics in *.
    by change (op_ids (op_unregister uid :: ops)) with (op_ids ops).
Qed.

(** ** Joining and leaving *)

Lemma filter_none {A} (P : A → Prop) `{∀ x, Decision (P x)} (l : list A) :
  (∀ x, x ∈ l → ¬ P x) → filter P l = [].
Proof.
  induction l as [|x l IH]; intros Hnone; [done |].
  rewrite filter_cons, decide_False by (apply Hnone; by left).
  apply IH. intros y Hy. apply Hnone. by right.
Qed.

(** X3.  Joining and then leaving restores the registry.  Take a
    consistent registry, a user id that has no connection, no room and is
    in no member set, and a room whose id is not empty and none of whose
    members has a connection (a join deregisters the members that have
    one).  After [register_connection] followed by
    [unregister_connection]: nothing was handed to the transport;
    [connections] and [user_rooms] are what they were; the room has the
    member set and the directory entry it had, or an empty set and a zero
    count if it did not exist (the room itself stays); and only
    [connection_count] has moved, by one. *)
Theorem join_then_leave_restores websocket user room w :
  registry_ok (manager w) →
  connections (manager w) !! user_id user = None →
  user_rooms (manager w) !! user_id user = None →
  unused (user_id user) (manager w) →
  room ≠ "" →
  (∀ v, v ∈ default ∅ (room_users (manager w) !! room) →
        connections (manager w) !! v = None) →
  let w' := snd (run_ops [op_register websocket user room; op_unregister (user_id user)] w) in
  trace w' = trace w
  ∧ connections (manager w') = connections (manager w)
  ∧ user_rooms (manager w') = user_rooms (manager w)
  ∧ room_users (manager w') =
    <[room := default ∅ (room_users (manager w) !! room)]> (room_users (manager w))
  ∧ active_rooms (manager w') =
    <[room := default (mkChatRoom room ("Room " +:+ room) 0 true)
                (active_rooms (manager w) !! room)]> (active_rooms (manager w))
  ∧ metrics (manager w') = incr_connection_count (metrics (manager w)).
Proof.
  intros Hok Hconn Hur Hfresh Hroom Halone. cbv zeta.
  rewrite !run_ops_cons. cbn [run_op run_ops for_each ret snd].
  rewrite register_connection_covered by by apply registry_ok_covers.
  cbn [snd]. rewrite on_manager_modify. cbn [snd manager trace].
  split; [done |].
  set (self := manager w) in *. set (uid := user_id user) in *.
  set (members := default ∅ (room_users self !! room)) in *.
  set (fresh := mkChatRoom room ("Room " +:+ room) 0 true).
  assert (deliverable (registered websocket user room self) (Some uid)
            (elements (members ∪ {[uid]})) = []) as ->.
  { unfold deliverable. apply filter_none.
    intros v Hv [Hne [ws Hc]]. apply elem_of_elements in Hv.
    assert (v ≠ uid) as Hv' by congruence.
    unfold registered in Hc; cbn in Hc. fold uid in Hc.
    rewrite lookup_insert_ne in Hc by done.
    rewrite Halone in Hc; [done | set_solver]. }
  change (unregister_all [] ?m) with m.
  assert (room_users (registered websocket user room self) !! room
          = Some (members ∪ {[uid]})) as Hm by apply lookup_insert_eq.
  destruct (registered_entry_count websocket user room self) as (r & Hr & Hcount).
  assert (0 ≤ active_users r - 1 ∧
          set_active_users (active_users r - 1) r = default fresh (active_rooms self !! room))
    as [Hnn Hentry].
  { unfold registered in Hr; cbn in Hr. rewrite lookup_insert_eq in Hr.
    injection Hr as <-. cbn.
    destruct Hok as [Hdir Hcnt _].
    destruct (room_users self !! room) as [ms|] eqn:Hms.
    - destruct (proj1 (Hdir room)) as [r0 Hr0]; [by rewrite Hms |].
      rewrite Hr0. cbn. specialize (Hcnt room ms r0 Hms Hr0).
      split; [lia |]. destruct r0; cbn in *. unfold set_active_users; cbn.
      f_equal. lia.
    - assert (active_rooms self !! room = None) as ->.
      { destruct (active_rooms self !! room) eqn:Hr0; [|done].
        destruct (proj2 (Hdir room)) as [? ?]; [by rewrite Hr0 | congruence]. }
      cbn. split; [lia | reflexivity]. }
  assert (members ∖ {[uid]} = members ∧ uid ∉ members) as [Hdiff Hnot].
  { assert (uid ∉ members) as Hnot.
    { subst members. destruct (room_users self !! room) as [ms|] eqn:Hms; cbn.
      - by apply (Hfresh room).
      - set_solver. }
    split; [clear -Hnot; clearbody members uid; set_solver | done]. }
  rewrite unregister_connections, unregister_user_rooms, unregister_room_users,
    unregister_active_rooms, unregister_metrics.
  change (connections (registered websocket user room self))
    with (<[uid := websocket]> (connections self)).
  change (user_rooms (registered websocket user room self))
    with (<[uid := room]> (user_rooms self)).
  rewrite !lookup_insert_eq. destruct (decide (room ≠ "")) as [_|?]; [|done].
  rewrite Hm, Hr. rewrite !delete_insert_id by done.
  do 2 (split; [done |]). split; [|split; [|done]].
  - unfold registered; cbn. rewrite insert_insert_eq. f_equal.
    clear -Hnot. clearbody members uid. set_solver.
  - unfold registered; cbn. rewrite insert_insert_eq. f_equal.
    rewrite <- Hentry. unfold set_active_users; cbn. f_equal. lia.
Qed.

(** ** The room with the empty id *)

(** X4.  A user who joins the room whose id is the empty string is never
    taken out of it.  When no other handler is active and every known room
    has a directory entry, after [register_connection] into room "" and
    then [unregister_connection], the user has no connection and no room
    any more, yet it is still in the member set of room "" and the room's
    count still includes it: [unregister_connection] skips both updates
    because it tests the room id for truth. *)
Theorem empty_room_id_never_left websocket user w :
  quiet (oracle w) → directory_covers (manager w) →
  let uid := user_id user in
  let w' := snd (run_ops [op_register websocket user ""; op_unregister uid] w) in
  let members := default ∅ (room_users (manager w) !! "") in
  let before :=
    if room_users (manager w) !! "" is Some _
    then from_option active_users 0 (active_rooms (manager w) !! "")
    else 0 in
  connections (manager w') !! uid = None
  ∧ user_rooms (manager w') !! uid = None
  ∧ room_users (manager w') !! "" = Some (members ∪ {[uid]})
  ∧ ∃ r, active_rooms (manager w') !! "" = Some r ∧ active_users r = before + 1.
Proof.
  intros Hq Hdir. cbv zeta.
  rewrite !run_ops_cons. cbn [run_op run_ops for_each ret snd].
  rewrite register_connection_covered by done.
  destruct (registered_entry_count websocket user "" (manager w)) as (r & Hr & Hcount).
  cbn [snd]. rewrite on_manager_modify. cbn [snd manager].
  set (evicted := deliverable _ _ _).
  assert (user_id user ∉ evicted) as Hkept by apply join_targets_not_new.
  set (self1 := unregister_all evicted (registered websocket user "" (manager w))).
  assert (connections self1 !! user_id user = Some websocket) as Hc.
  { subst self1. rewrite unregister_all_connections_other by done. apply lookup_insert_eq. }
  assert (user_rooms self1 !! user_id user = Some "") as Hu.
  { subst self1. rewrite unregister_all_user_rooms_other by done. apply lookup_insert_eq. }
  assert (room_users (unregister_connection (user_id user) self1) = room_users self1
          ∧ active_rooms (unregister_connection (user_id user) self1) = active_rooms self1)
    as [-> ->].
  { rewrite unregister_room_users, unregister_active_rooms, Hc, Hu.
    by rewrite !decide_False by naive_solver. }
  rewrite unregister_connections, unregister_user_rooms, Hc.
  split; [apply lookup_delete_eq |]. split; [apply lookup_delete_eq |].
  subst self1.
  destruct (unregister_all_keeps_empty_room evicted
              (registered websocket user "" (manager w))) as [-> ->].
  split; [apply lookup_insert_eq |]. eauto.
Qed.

(** ** Who receives a chat message *)

(** X8.  When no other handler is active, an approved message of a user
    recorded in a known room is sent once to every member of that room
    that has a connection, in iteration order, and the call returns
    [True].  No member is excluded: a sender that is a connected member of
    its room is sent its own message. *)
Theorem chat_message_reaches_room_and_sender user text fresh_id now room members w :
  quiet (oracle w) →
  user_rooms (manager w) !! user_id user = Some room →
  room_users (manager w) !! room = Some members →
  moderate_message (moderation_service (manager w))
    (new_message user text fresh_id now (user_rooms (manager w))) user = true →
  let message := new_message user text fresh_id now (user_rooms (manager w)) in
  ∃ new w',
    handle_chat_message user text fresh_id now w = (Ok true, w')
    ∧ m_room_id message = room
    ∧ trace w' = trace w ++ new
    ∧ Forall2 (delivery_of (manager w) (chat_message message))
        (filter (λ uid, is_Some (connections (manager w) !! uid)) (elements members)) new
    ∧ (user_id user ∈ members → is_Some (connections (manager w) !! user_id user) →
       ∃ e, e ∈ new ∧ ev_user e = user_id user ∧ ev_payload e = chat_message message).
Proof.
  intros Hq Hur Hroom Hok message.
  assert (m_room_id message = room) as Hmr.
  { subst message. unfold new_message. cbn. by rewrite Hur. }
  unfold handle_chat_message, try_except.
  rewrite bind_run. cbn [gets]. rewrite bind_run. cbn [gets].
  rewrite Hok. cbn [negb]. fold message. rewrite Hmr.
  rewrite bind_run. unfold on_manager at 1.
  destruct (store_message message (redis_manager (manager w))) as [stored redis'].
  rewrite bind_run.
  edestruct (broadcast_to_room_quiet room (chat_message message) None members
               (mkWorld (set_redis_manager redis' (manager w)) (trace w) (oracle w)))
    as (new & -> & Hall); [done | exact Hq | exact Hroom |].
  rewrite bind_run, on_manager_modify. cbn.
  assert (deliverable (set_redis_manager redis' (manager w)) None (elements members)
          = filter (λ uid, is_Some (connections (manager w) !! uid)) (elements members))
    as Htargets.
  { unfold deliverable. apply filter_ext_in. intros u _. cbn. naive_solver. }
  cbn [manager] in Hall. rewrite Htargets in Hall.
  eexists new, _. split; [done |]. cbn [trace]. do 3 (split; [done |]).
  intros Hin Hconn.
  assert (user_id user ∈ filter (λ uid, is_Some (connections (manager w) !! uid))
                           (elements members)) as Htarget.
  { apply list_elem_of_filter. split; [done | by apply elem_of_elements]. }
  apply list_elem_of_lookup_1 in Htarget as [i Hi].
  destruct (Forall2_lookup_l _ _ _ _ _ Hall Hi) as (e & He & Hu & _ & Hp).
  exists e. split; [by eapply list_elem_of_lookup_2 | done].
Qed.

(** ** Moderation cannot be evaded by padding or by letter case *)

(** X15.  With the reference word list, a rejected text stays rejected
    when it is padded and when the case of its letters is changed: if a
    message is rejected for an author, so is, for the same author, every
    message whose content contains a text equal to the rejected content up
    to the case of the letters [A]..[Z]. *)
Theorem rejection_survives_padding_and_case message message' user s before after :
  moderate_message MessageModerationService_init message user = false →
  lower s = lower (content message) →
  content message' = before +:+ s +:+ after →
  moderate_message MessageModerationService_init message' user = false
  ∧ ∃ word, word ∈ ["spam"; "toxic"; "hate"]
            ∧ occurs_ignoring_case word (content message').
Proof.
  unfold moderate_message. intros Hrej Hcase Hpad.
  destruct (decide (role user = MODERATOR ∨ role user = STREAMER)); [done |].
  apply scan_blocked_false in Hrej as (word & Hin & Hocc).
  assert (occurs_in word (lower (content message'))) as Hocc'.
  { rewrite Hpad, !lower_append, Hcase. by apply occurs_in_append. }
  split; [apply scan_blocked_false; by exists word |].
  exists word. split; [done |]. apply occurs_lower_ignoring_case; [|done].
  cbn in Hin. repeat (apply elem_of_cons in Hin as [->|Hin]; [done |]).
  by apply elem_of_nil in Hin.
Qed.

(** ** Member sets and the reverse map agree *)

Lemma registered_recorded websocket user room self :
  members_recorded self → unused (user_id user) self → room ≠ "" →
  members_recorded (registered websocket user room self).
Proof.
  intros [Hempty Hrec] Hfresh Hroom. split.
  - unfold registered; cbn. by rewrite lookup_insert_ne.
  - intros v room0 members0. unfold registered; cbn.
    destruct (decide (room0 = room)) as [->|Hk].
    + rewrite lookup_insert_eq. intros [= <-] Hin.
      destruct (decide (v = user_id user)) as [->|Hv].
      { rewrite !lookup_insert_eq. eauto. }
      rewrite !lookup_insert_ne by done.
      destruct (room_users self !! room) as [ms|] eqn:Hms; cbn in Hin.
      * apply (Hrec v room ms); [done | set_solver].
      * set_solver.
    + rewrite lookup_insert_ne by done. intros Hms Hin.
      assert (v ≠ user_id user) as Hv.
      { intros ->. by apply (Hfresh room0 members0). }
      rewrite !lookup_insert_ne by done. by apply (Hrec v room0 members0).
Qed.

Lemma unregister_recorded uid self :
  members_recorded self → members_recorded (unregister_connection uid self).
Proof.
  intros [Hempty Hrec].
  destruct (connections self !! uid) as [websocket|] eqn:Hconn;
    [|by rewrite unregister_absent].
  split.
  - by rewrite (proj1 (unregister_keeps_empty_room uid self)).
  - intros v room0 members0.
    rewrite unregister_room_users, unregister_connections, unregister_user_rooms, Hconn.
    assert (∀ ms, room_users self !! room0 = Some ms → v ∈ ms → v ≠ uid →
                  delete uid (user_rooms self) !! v = Some room0
                  ∧ is_Some (delete uid (connections self) !! v)) as Hother.
    { intros ms Hms Hin Hne. rewrite !lookup_delete_ne by done. by apply (Hrec v room0 ms). }
    destruct (user_rooms self !! uid) as [room|] eqn:Hur.
    2:{ intros Hms Hin. apply (Hother members0); [done..|].
        intros ->. destruct (Hrec uid room0 members0 Hms Hin) as [? _]. congruence. }
    assert (∀ ms, room_users self !! room0 = Some ms → v ∈ ms → room0 ≠ room → v ≠ uid)
      as Hne_room.
    { intros ms Hms Hin Hk ->.
      destruct (Hrec uid room0 ms Hms Hin) as [? _]. congruence. }
    destruct (decide (room ≠ "")) as [Hroom|Hroom].
    + destruct (room_users self !! room) as [ms|] eqn:Hms.
      * destruct (decide (room0 = room)) as [->|Hk].
        -- rewrite lookup_insert_eq. intros [= <-] Hin.
           apply (Hother ms); [done | set_solver | set_solver].
        -- rewrite lookup_insert_ne by done. intros Hms0 Hin.
           apply (Hother members0); [done..|]. by apply (Hne_room members0).
      * intros Hms0 Hin. apply (Hother members0); [done..|].
        apply (Hne_room members0); [done..|]. congruence.
    + intros Hms0 Hin. apply (Hother members0); [done..|].
      apply (Hne_room members0); [done..|].
      intros ->. apply dec_stable in Hroom. congruence.
Qed.

Lemma register_connection_recorded fut websocket user room w :
  consistent (user_id user :: fut) w →
  members_recorded (manager w) → room ≠ "" →
  consistent fut (snd (register_connection websocket user room w))
  ∧ members_recorded (manager (snd (register_connection websocket user room w))).
Proof.
  intros Hc Hrec Hroom.
  split; [by apply register_connection_consistent |].
  destruct Hc as (Hok & Hnd & Hun).
  rewrite <- Permutation_middle in Hun. apply Forall_cons in Hun as [Hfresh Hun].
  rewrite register_connection_covered by by apply registry_ok_covers.
  cbn [snd manager].
  apply (unregister_all_keeps members_recorded);
    [intros self0 v; apply unregister_recorded |].
  by apply registered_recorded.
Qed.

Lemma run_ops_recorded ops w :
  consistent (op_ids ops) w →
  members_recorded (manager w) → "" ∉ op_rooms ops →
  consistent [] (snd (run_ops ops w))
  ∧ members_recorded (manager (snd (run_ops ops w))).
Proof.
  revert w. induction ops as [|op ops IH]; intros w Hc Hrec Hrooms; [done |].
  rewrite run_ops_cons. destruct op as [websocket user room|uid].
  - change (op_rooms (op_register websocket user room :: ops))
      with (room :: op_rooms ops) in Hrooms.
    apply not_elem_of_cons in Hrooms as [Hroom Hrooms].
    destruct (register_connection_recorded (op_ids ops) websocket user room w)
      as (H1 & H2); [done.. | congruence |].
    by apply IH.
  - cbn [run_op]. rewrite on_manager_modify. cbn [snd].
    apply IH; [by apply unregister_consistent | by apply unregister_recorded | done].
Qed.

(** X16.  The member sets and the reverse map agree.  Take any
    registrations and deregistrations run from the initial state, in any
    order, where the user ids being registered are pairwise distinct and
    no room id is the empty string.  Afterwards a user id is in a room's
    member set exactly when it has a connection and [user_rooms] records
    that room for it. *)
Theorem member_sets_match_user_rooms ops redis now o :
  NoDup (oracle_ids o ++ op_ids ops) →
  "" ∉ oracle_rooms o ++ op_rooms ops →
  let self := manager (snd (run_ops ops (initial_world redis now o))) in
  ∀ uid room members,
    room_users self !! room = Some members →
    (uid ∈ members
     ↔ is_Some (connections self !! uid) ∧ user_rooms self !! uid = Some room).
Proof.
  intros Hnd Hrooms self uid room members Hms.
  apply not_elem_of_app in Hrooms as [Ho Hops].
  destruct (run_ops_recorded ops (initial_world redis now o))
    as ((Hok & _) & _ & Hrec);
    [by apply initial_consistent
    |split; [done | intros v room0 ms; cbn; by rewrite lookup_empty]
    |done|].
  fold self in Hok, Hrec. split.
  - intros Hin. destruct (Hrec uid room members Hms Hin). by split.
  - intros [Hc Hur]. destruct (ok_member _ Hok uid room Hc Hur) as (ms & Hms' & Hin).
    congruence.
Qed.

(** ** Connections and recorded rooms have the same users *)

(** X17.  A user id has a connection exactly when [user_rooms] records a
    room for it.  From any state where this holds and every known room has
    a directory entry and a non-negative count, it still holds after any
    run of registrations and deregistrations and after a whole
    [handle_client], under any send outcomes and any interleaving. *)
Theorem connections_match_user_rooms (w : World) :
  sound (manager w) →
  dom (connections (manager w)) = dom (user_rooms (manager w)) →
  (∀ ops,
     dom (connections (manager (snd (run_ops ops w))))
     = dom (user_rooms (manager (snd (run_ops ops w)))))
  ∧ (∀ websocket auth fresh_id inbox,
       dom (connections (manager (snd (handle_client websocket auth fresh_id inbox w))))
       = dom (user_rooms (manager (snd (handle_client websocket auth fresh_id inbox w))))).
Proof.
  intros Hs Hkeys.
  set (P := λ self, sound self ∧ dom (connections self) = dom (user_rooms self)).
  assert (∀ self ws u room, P self → P (snd (register_prefix ws u room self))) as H1.
  { intros self ws u room [HPs HPk].
    rewrite register_prefix_covered by apply HPs. cbn [snd].
    split; [by apply registered_sound |].
    unfold registered; cbn. rewrite !dom_insert_L. by rewrite HPk. }
  assert (∀ self uid, P self → P (unregister_connection uid self)) as H2.
  { intros self uid [HPs HPk]. split; [by apply unregister_sound |].
    rewrite unregister_connections, unregister_user_rooms.
    destruct (connections self !! uid) eqn:Hc.
    - rewrite !dom_delete_L. by rewrite HPk.
    - rewrite dom_delete_L, <- HPk. apply not_elem_of_dom in Hc. set_solver. }
  assert (∀ self, P self → P (set_metrics incr_disconnection_count self)) as H3
    by (intros self HP; exact HP).
  assert (∀ self r, P self → P (set_redis_manager r self)) as H4 by (intros; done).
  assert (∀ self, P self → P (set_metrics incr_message_count self)) as H5
    by (intros self HP; exact HP).
  assert (∀ self, P self → P (set_metrics incr_failed_messages self)) as H6
    by (intros self HP; exact HP).
  assert (P (manager w)) as H0 by done.
  split.
  - intros ops. by apply (run_ops_keeps P).
  - intros websocket auth fresh_id inbox. by apply (handle_client_keeps P).
Qed.

(** ** Example runs of the further theorems *)

Lemma alice_registered_consistent o fut :
  NoDup (oracle_ids o ++ "a" :: fut) → consistent fut (alice_registered o).
Proof.
  intros Hnd. apply (register_connection_consistent fut 1%nat alice "R1").
  by apply initial_consistent.
Qed.

Lemma rejected_authentication_changes_nothing_witness :
  let auth := Some (mkAuth (Some "eve") (Some "admin") (Some "R1")) in
  let w := bob_joined [] in
  (auth = None
   ∨ (∃ auth_data value, auth = Some auth_data
                         ∧ auth_role auth_data = Some value
                         ∧ value ∉ ["viewer"; "moderator"; "streamer"]))
  ∧ client_connect 3%nat auth "e" w = (Ok None, w)
  ∧ ∀ inbox, handle_client 3%nat auth "e" inbox w = (Ok tt, w).
Proof.
  cbv zeta.
  assert (Some (mkAuth (Some "eve") (Some "admin") (Some "R1")) = None
          ∨ (∃ auth_data value,
               Some (mkAuth (Some "eve") (Some "admin") (Some "R1")) = Some auth_data
               ∧ auth_role auth_data = Some value
               ∧ value ∉ ["viewer"; "moderator"; "streamer"])) as Hbad.
  { right. eexists _, "admin". split; [reflexivity |]. split; [reflexivity |].
    decide_by_compute. }
  split; [exact Hbad |].
  exact (rejected_authentication_changes_nothing 3%nat _ "e" (bob_joined []) Hbad).
Defined.

(** Bob joins R1, where Alice is connected. *)
Lemma register_connection_registers_witness :
  let w := alice_registered [(Closed, [])] in
  directory_covers (manager w)
  ∧ ∃ w',
      register_connection 2%nat bob "R1" w = (Ok tt, w')
      ∧ trace w' = trace w
      ∧ oracle w' = oracle w
      ∧ connections (manager w') !! "b" = Some 2%nat
      ∧ user_rooms (manager w') !! "b" = Some "R1"
      ∧ (∃ members', room_users (manager w') !! "R1" = Some members' ∧ "b" ∈ members')
      ∧ connection_count (metrics (manager w')) = connection_count (metrics (manager w)) + 1
      ∧ disconnection_count (metrics (manager w'))
        = disconnection_count (metrics (manager w))
      ∧ ∀ v, v ∈ default ∅ (room_users (manager w) !! "R1") → v ≠ "b" →
          connections (manager w') !! v = None
          ∧ (is_Some (connections (manager w) !! v) → user_rooms (manager w') !! v = None).
Proof.
  cbv zeta.
  assert (directory_covers (manager (alice_registered [(Closed, [])]))) as H1.
  { unfold alice_registered. rewrite register_connection_join. cbn [snd manager].
    apply join_sound, initial_sound. }
  split; [done |].
  exact (register_connection_registers 2%nat bob "R1" _ H1).
Defined.

(** Bob joins R2, which does not exist yet, and leaves. *)
Lemma join_then_leave_restores_witness :
  let w := alice_registered [] in
  registry_ok (manager w)
  ∧ connections (manager w) !! "b" = None
  ∧ user_rooms (manager w) !! "b" = None
  ∧ unused "b" (manager w)
  ∧ "R2" ≠ ""
  ∧ (∀ v, v ∈ default ∅ (room_users (manager w) !! "R2") →
          connections (manager w) !! v = None)
  ∧ let w' := snd (run_ops [op_register 2%nat bob "R2"; op_unregister "b"] w) in
    trace w' = trace w
    ∧ connections (manager w') = connections (manager w)
    ∧ user_rooms (manager w') = user_rooms (manager w)
    ∧ room_users (manager w') =
      <["R2" := default ∅ (room_users (manager w) !! "R2")]> (room_users (manager w))
    ∧ active_rooms (manager w') =
      <["R2" := default (mkChatRoom "R2" ("Room " +:+ "R2") 0 true)
                  (active_rooms (manager w) !! "R2")]> (active_rooms (manager w))
    ∧ metrics (manager w') = incr_connection_count (metrics (manager w)).
Proof.
  cbv zeta.
  assert (consistent ["b"] (alice_registered [])) as (H1 & _ & H4)
    by (apply alice_registered_consistent; decide_by_compute).
  apply Forall_cons in H4 as [H4 _].
  assert (connections (manager (alice_registered [])) !! "b" = None) as H2
    by by vm_compute.
  assert (user_rooms (manager (alice_registered [])) !! "b" = None) as H3
    by by vm_compute.
  assert ("R2" ≠ "") as H5 by done.
  assert (∀ v, v ∈ default ∅ (room_users (manager (alice_registered [])) !! "R2") →
               connections (manager (alice_registered [])) !! v = None) as H6.
  { assert (room_users (manager (alice_registered [])) !! "R2" = None) as ->
      by by vm_compute.
    intros v Hv. cbn in Hv. set_solver. }
  do 6 (split; [done |]).
  exact (join_then_leave_restores 2%nat bob "R2" _ H1 H2 H3 H4 H5 H6).
Defined.

Lemma empty_room_id_never_left_witness :
  let w := alice_registered [] in
  quiet (oracle w) ∧ directory_covers (manager w)
  ∧ let w' := snd (run_ops [op_register 3%nat xena ""; op_unregister "x"] w) in
    connections (manager w') !! "x" = None
    ∧ user_rooms (manager w') !! "x" = None
    ∧ room_users (manager w') !! "" =
      Some (default ∅ (room_users (manager w) !! "") ∪ {["x"]})
    ∧ ∃ r, active_rooms (manager w') !! "" = Some r
           ∧ active_users r =
             (if room_users (manager w) !! "" is Some _
              then from_option active_users 0 (active_rooms (manager w) !! "")
              else 0) + 1.
Proof.
  cbv zeta.
  assert (quiet (oracle (alice_registered []))) as H1 by decide_by_compute.
  assert (directory_covers (manager (alice_registered []))) as H2.
  { unfold alice_registered. rewrite register_connection_join. cbn [snd manager].
    apply join_sound, initial_sound. }
  do 2 (split; [done |]).
  exact (empty_room_id_never_left 3%nat xena _ H1 H2).
Defined.

(** Alice sends "hello" alone in R1, and Carol joins and leaves meanwhile. *)
Lemma approved_message_counted_once_witness :
  let w := alice_in_room [(Delivered, [env_register 3%nat carol "R1"; env_unregister "c"])] in
  no_other_chat (oracle w)
  ∧ moderate_message (moderation_service (manager w))
      (new_message alice "hello" "m1" 5 (user_rooms (manager w))) alice = true
  ∧ let result := handle_chat_message alice "hello" "m1" 5 w in
    let m := metrics (manager w) in
    let m' := metrics (manager (snd result)) in
    (fst result = Ok true
     ∧ message_count m' = message_count m + 1
     ∧ failed_messages m' = failed_messages m)
    ∨ (fst result = Ok false
       ∧ message_count m' = message_count m
       ∧ failed_messages m' = failed_messages m + 1).
Proof.
  cbv zeta. split; [decide_by_compute |]. split; [by vm_compute |].
  apply (approved_message_counted_once alice "hello" "m1" 5
           (alice_in_room [(Delivered, [env_register 3%nat carol "R1";
                                        env_unregister "c"])])).
  - decide_by_compute.
  - by vm_compute.
Defined.

Lemma approved_message_stored_witness :
  let w := alice_with_redis in
  no_other_chat (oracle w)
  ∧ moderate_message (moderation_service (manager w))
      (new_message alice "hello" "m1" 5 (user_rooms (manager w))) alice = true
  ∧ let message := new_message alice "hello" "m1" 5 (user_rooms (manager w)) in
    redis_client (redis_manager (manager (snd (handle_chat_message alice "hello" "m1" 5 w))))
    = match redis_client (redis_manager (manager w)) with
      | Some client =>
          if reachable client
          then Some {| reachable := true;
                       stored := stored client
                                 ++ [("messages:" +:+ m_room_id message +:+ ":" +:+ "m1",
                                      3600, message)] |}
          else Some client
      | None => None
      end.
Proof.
  cbv zeta. split; [decide_by_compute |]. split; [by vm_compute |].
  apply (approved_message_stored alice "hello" "m1" 5 alice_with_redis).
  - decide_by_compute.
  - by vm_compute.
Defined.

Lemma chat_message_reaches_room_and_sender_witness :
  let w := alice_in_room [] in
  let message := new_message alice "hello" "m1" 5 (user_rooms (manager w)) in
  quiet (oracle w)
  ∧ user_rooms (manager w) !! "a" = Some "R1"
  ∧ room_users (manager w) !! "R1" = Some {["a"]}
  ∧ moderate_message (moderation_service (manager w)) message alice = true
  ∧ ∃ new w',
      handle_chat_message alice "hello" "m1" 5 w = (Ok true, w')
      ∧ m_room_id message = "R1"
      ∧ trace w' = trace w ++ new
      ∧ Forall2 (delivery_of (manager w) (chat_message message))
          (filter (λ uid, is_Some (connections (manager w) !! uid))
             (elements ({["a"]} : gset string))) new
      ∧ ("a" ∈ ({["a"]} : gset string) →
         is_Some (connections (manager w) !! "a") →
         ∃ e, e ∈ new ∧ ev_user e = "a" ∧ ev_payload e = chat_message message).
Proof.
  cbv zeta.
  assert (quiet (oracle (alice_in_room []))) as H1 by decide_by_compute.
  assert (user_rooms (manager (alice_in_room [])) !! "a" = Some "R1") as H2 by by vm_compute.
  assert (room_users (manager (alice_in_room [])) !! "R1" = Some {["a"]}) as H3
    by by vm_compute.
  assert (moderate_message (moderation_service (manager (alice_in_room [])))
            (new_message alice "hello" "m1" 5 (user_rooms (manager (alice_in_room []))))
            alice = true) as H4 by by vm_compute.
  do 4 (split; [done |]).
  exact (chat_message_reaches_room_and_sender alice "hello" "m1" 5 "R1" _ _ H1 H2 H3 H4).
Defined.

Lemma handle_client_always_deregisters_witness :
  let inbox := [(typed (Some "chat_message") (Some "hi"), "m1", 5);
                (malformed, "m2", 6)] in
  UserRole_of_value (default "viewer" (auth_role auth_bob)) = Some VIEWER
  ∧ fst (handle_client 2%nat (Some auth_bob) "b" inbox (alice_in_room [])) = Ok tt
  ∧ connections (manager (snd (handle_client 2%nat (Some auth_bob) "b" inbox
                                 (alice_in_room [])))) !! "b" = None.
Proof.
  cbv zeta. split; [reflexivity |].
  apply (handle_client_always_deregisters 2%nat auth_bob "b" VIEWER).
  reflexivity.
Defined.


Lemma quiet_run_counts_witness :
  let ops := [op_register 1%nat alice "R1"; op_register 2%nat bob "R1";
              op_unregister "a"] in
  let w := initial_world no_redis 0 [(Failed, [])] in
  quiet (oracle w) ∧ sound (manager w)
  ∧ let m := metrics (manager w) in
    let m' := metrics (manager (snd (run_ops ops w))) in
    connection_count m' = connection_count m + Z.of_nat (length (op_ids ops))
    ∧ disconnection_count m' = disconnection_count m
    ∧ message_count m' = message_count m
    ∧ failed_messages m' = failed_messages m.
Proof.
  cbv zeta.
  assert (quiet (oracle (initial_world no_redis 0 [(Failed, [])]))) as H1
    by decide_by_compute.
  assert (sound (manager (initial_world no_redis 0 [(Failed, [])]))) as H2
    by apply initial_sound.
  do 2 (split; [done |]).
  exact (quiet_run_counts _ _ H1 H2).
Defined.

Lemma rejection_survives_padding_and_case_witness :
  let rejected := mkChatMessage "m1" "b" "bob" "spam" 5 "R1" false in
  let padded := mkChatMessage "m2" "b" "bob" "buy SPAM now" 6 "R1" false in
  moderate_message MessageModerationService_init rejected bob = false
  ∧ lower "SPAM" = lower (content rejected)
  ∧ content padded = "buy " +:+ "SPAM" +:+ " now"
  ∧ moderate_message MessageModerationService_init padded bob = false
  ∧ ∃ word, word ∈ ["spam"; "toxic"; "hate"]
            ∧ occurs_ignoring_case word (content padded).
Proof.
  cbv zeta. do 3 (split; [reflexivity |]).
  apply (rejection_survives_padding_and_case
           (mkChatMessage "m1" "b" "bob" "spam" 5 "R1" false)
           (mkChatMessage "m2" "b" "bob" "buy SPAM now" 6 "R1" false)
           bob "SPAM" "buy " " now"); reflexivity.
Defined.

Lemma member_sets_match_user_rooms_witness :
  let ops := [op_register 1%nat alice "R1"; op_register 2%nat bob "R1";
              op_unregister "a"] in
  let o := [(Delivered, [env_register 3%nat carol "R2"])] in
  NoDup (oracle_ids o ++ op_ids ops)
  ∧ ("" ∉ oracle_rooms o ++ op_rooms ops)
  ∧ let self := manager (snd (run_ops ops (initial_world no_redis 0 o))) in
    ∀ uid room members,
      room_users self !! room = Some members →
      (uid ∈ members
       ↔ is_Some (connections self !! uid) ∧ user_rooms self !! uid = Some room).
Proof.
  cbv zeta.
  assert (NoDup (oracle_ids [(Delivered, [env_register 3%nat carol "R2"])]
                 ++ op_ids [op_register 1%nat alice "R1"; op_register 2%nat bob "R1";
                            op_unregister "a"])) as H1 by decide_by_compute.
  assert ("" ∉ oracle_rooms [(Delivered, [env_register 3%nat carol "R2"])]
               ++ op_rooms [op_register 1%nat alice "R1"; op_register 2%nat bob "R1";
                            op_unregister "a"]) as H2 by decide_by_compute.
  do 2 (split; [done |]).
  exact (member_sets_match_user_rooms _ no_redis 0 _ H1 H2).
Defined.

Lemma connections_match_user_rooms_witness :
  let w := initial_world no_redis 0 [(Failed, [env_register 3%nat carol "R2"])] in
  sound (manager w)
  ∧ dom (connections (manager w)) = dom (user_rooms (manager w))
  ∧ (∀ ops,
       dom (connections (manager (snd (run_ops ops w))))
       = dom (user_rooms (manager (snd (run_ops ops w)))))
  ∧ (∀ websocket auth fresh_id inbox,
       dom (connections (manager (snd (handle_client websocket auth fresh_id inbox w))))
       = dom (user_rooms (manager (snd (handle_client websocket auth fresh_id inbox w))))).
Proof.
  cbv zeta.
  assert (sound (manager (initial_world no_redis 0
                            [(Failed, [env_register 3%nat carol "R2"])]))) as H1
    by apply initial_sound.
  assert (dom (connections (manager (initial_world no_redis 0
                                       [(Failed, [env_register 3%nat carol "R2"])])))
          = dom (user_rooms (manager (initial_world no_redis 0
                                        [(Failed, [env_register 3%nat carol "R2"])]))))
    as H2 by reflexivity.
  do 2 (split; [done |]).
  exact (connections_match_user_rooms _ H1 H2).
Defined.

